(** * MpqViewer: resolution and extraction pipeline

    Shallow embedding of the MpqViewer command (package main): the path
    conversions [normalize] and [denormalize], the archive chain lookup
    [readFile] with its panic boundary [archiveReadFile], the listfile
    filters, the extraction loop and the strategy selection of [main].

    The three variants of the program in the repository share [readFile],
    [archiveReadFile], [normalize] and the extraction loop verbatim; the
    newest variant adds the [lower] flag, the [embedded] flag and the bundled
    listfile.  The embedding follows the newest variant and keeps the older
    [main] next to it. *)

From Stdlib Require Import String Ascii List Bool Arith NArith Lia.
Import ListNotations.
Open Scope string_scope.
Open Scope list_scope.

(** ** Go values *)

(** A Go [string] or [[]byte] is a sequence of bytes: [string] of 8-bit
    [ascii]. *)
Definition bytes := string.

(** [s[n:]] for [n <= len(s)]. *)
Fixpoint slice_from (n : nat) (s : string) : string :=
  match n, s with
  | O, _ => s
  | S n', String _ rest => slice_from n' rest
  | S _, EmptyString => EmptyString
  end.

(** [strings.ReplaceAll(s, old, new)] where [old] and [new] are one byte
    long, which is how every call of the program uses it. *)
Fixpoint strings_ReplaceAll (s : string) (old new : ascii) : string :=
  match s with
  | EmptyString => EmptyString
  | String c rest =>
      String (if Ascii.eqb c old then new else c)
             (strings_ReplaceAll rest old new)
  end.

(** [strings.HasPrefix(s, prefix)]. *)
Definition strings_HasPrefix (s prefix : string) : bool := String.prefix prefix s.

(** [strings.Split(s, sep)] for a one-byte separator: the fields between
    the separators, always at least one. *)
Fixpoint strings_Split (s : string) (sep : ascii) : list string :=
  match s with
  | EmptyString => [EmptyString]
  | String c rest =>
      if Ascii.eqb c sep then EmptyString :: strings_Split rest sep
      else match strings_Split rest sep with
           | [] => [String c EmptyString]
           | field :: fields => String c field :: fields
           end
  end.

Definition slash : ascii := "/"%char.
Definition backslash : ascii := "\"%char.

(** ** Errors

    [ErrNotFound] and [ErrFileRead] are the two sentinel values of package
    main.  An error made by a collaborator (the archive package, [os],
    [ioutil]) is a value of another package, hence never identical to a
    sentinel: [ErrForeign].  [WithStack] and [Wrap] are the wrappers of
    github.com/pkg/errors, and [Cause] unwraps them. *)
Inductive error : Type :=
| ErrNotFound
| ErrFileRead
| ErrForeign (detail : string)
| WithStack (err : error)
| Wrap (err : error) (message : string).

Fixpoint Cause (err : error) : error :=
  match err with
  | WithStack e => Cause e
  | Wrap e _ => Cause e
  | _ => err
  end.

(** A Go result pair [(value, error)]: the value when the error is nil. *)
Inductive result (A : Type) : Type :=
| OK (a : A)
| Err (err : error).
Arguments OK {A} a.
Arguments Err {A} err.

(** ** PathCodec *)

(** normalize normalizes the file path by replacing backslash characters
    with slash. *)
Definition normalize (filePath : string) : string :=
  strings_ReplaceAll filePath backslash slash.

(** denormalize de-normalizes the file path by replacing slash characters
    with backslashes and removing any leading slash prefix. *)
Definition denormalize (filePath : string) : string :=
  let filePath := strings_ReplaceAll filePath slash backslash in
  if strings_HasPrefix filePath "\" then slice_from (String.length "\") filePath
  else filePath.

(** ** The archive collaborator

    What a call into a collaborator can do: return a value, return an
    error, or panic. *)
Inductive foreign (A : Type) : Type :=
| Done (a : A)
| Failed (detail : string)
| Panicked (value : string).
Arguments Done {A} a.
Arguments Failed {A} detail.
Arguments Panicked {A} value.

(** An opened archive ([mpq.MPQ], [*d2mpq.MPQ]): the field and the three
    methods the program uses.  The existence check is taken to answer;
    the read and the listing may also fail or panic. *)
Record MPQ : Type := {
  FileName : string;
  FileExists : string -> bool;
  ReadFile : string -> foreign bytes;
  GetFileList : foreign (list string)
}.

(** ** The environment

    The library functions and the operating system the program calls.
    They are not part of the repository, so the development is
    parametric in them; [FS] is the state of the file system. *)
Class Env : Type := {
  strings_ToLower : string -> string;
  (** the only fact about [strings.ToLower] the development relies on *)
  strings_ToLower_empty : strings_ToLower "" = "";
  filepath_Join : list string -> string;
  filepath_Dir : string -> string;
  pathutil_FileName : string -> string;
  (** the tokens a [bufio.Scanner] yields over the given text, in order,
      until [Scan] returns false *)
  bufio_Scan : string -> list string;
  (** the bundled listfile constant *)
  rawListfile : string;
  FS : Type;
  os_MkdirAll : string -> FS -> option string * FS;
  ioutil_WriteFile : string -> bytes -> FS -> option string * FS;
  ioutil_ReadFile : string -> FS -> string + bytes;
  mpq_Load : string -> FS -> string + MPQ
}.

(** ** Observable events *)
Inductive message : Type :=
| MsgExtracting (filePath : string)
| MsgCreating (dstPath : string)
| MsgFileNotFound (filePath : string)
| MsgFileReadError (filePath : string) (err : error)
| MsgArchive (fileName : string)
| MsgFromListfile
| MsgFromListfileAt (listfilePath : string)
| MsgFromEmbedded
| MsgFromBundled.

Inductive event : Type :=
| Stdout (m : message)                           (* fmt.Printf, fmt.Println *)
| Logged (m : message)                           (* log.Printf *)
| CallLoad (mpqPath : string)                    (* mpq.Load *)
| CallFileExists (index : nat) (key : string)    (* archive.FileExists *)
| CallReadFile (index : nat) (key : string)      (* archive.ReadFile *)
| CallGetFileList (index : nat)                  (* archive.GetFileList *)
| CallIoReadFile (path : string)                 (* ioutil.ReadFile *)
| CallMkdirAll (dir : string)                    (* os.MkdirAll *)
| CallWriteFile (path : string) (data : bytes).  (* ioutil.WriteFile *)

(** ** The monad of the program

    A computation runs from a file-system state and ends with a value, an
    unrecovered panic, or the exit of the process ([log.Fatalf]); it
    leaves a file-system state and the events it produced, in order. *)
Inductive fatal : Type :=
| FatalError (err : error)
| FatalNoFiles.

Inductive res (A : Type) : Type :=
| Val (a : A)
| Panic (value : string)
| Exit (f : fatal).
Arguments Val {A} a.
Arguments Panic {A} value.
Arguments Exit {A} f.

Section Runtime.
Context {E : Env}.

Definition M (A : Type) : Type := FS -> res A * FS * list event.

Definition ret {A} (a : A) : M A := fun fs => (Val a, fs, []).

Definition bind {A B} (m : M A) (k : A -> M B) : M B :=
  fun fs =>
    match m fs with
    | (Val a, fs1, ev1) =>
        match k a fs1 with
        | (r, fs2, ev2) => (r, fs2, ev1 ++ ev2)
        end
    | (Panic v, fs1, ev1) => (Panic v, fs1, ev1)
    | (Exit f, fs1, ev1) => (Exit f, fs1, ev1)
    end.

Definition emit (e : event) : M unit := fun fs => (Val tt, fs, [e]).
Definition panic {A} (value : string) : M A := fun fs => (Panic value, fs, []).
Definition log_Fatalf {A} (f : fatal) : M A := fun fs => (Exit f, fs, []).

(** [defer func() { if e := recover(); e != nil { ... } }()] around [body]. *)
Definition recover {A} (body : M A) (handler : string -> M A) : M A :=
  fun fs =>
    match body fs with
    | (Panic v, fs1, ev1) =>
        match handler v fs1 with
        | (r, fs2, ev2) => (r, fs2, ev1 ++ ev2)
        end
    | done => done
    end.

End Runtime.

Notation "x <- m ;; k" := (bind m (fun x => k))
  (at level 61, m at next level, right associativity).
Notation "m ;; k" := (bind m (fun _ => k))
  (at level 61, right associativity).

Section Program.
Context {E : Env}.

(** Calls into the collaborators, each recorded as an event. *)
Definition call_FileExists (i : nat) (archive : MPQ) (key : string) : M bool :=
  emit (CallFileExists i key) ;; ret (FileExists archive key).

Definition call_ReadFile (i : nat) (archive : MPQ) (key : string)
  : M (result bytes) :=
  emit (CallReadFile i key) ;;
  match ReadFile archive key with
  | Done data => ret (OK data)
  | Failed detail => ret (Err (ErrForeign detail))
  | Panicked value => panic value
  end.

Definition call_GetFileList (i : nat) (archive : MPQ)
  : M (result (list string)) :=
  emit (CallGetFileList i) ;;
  match GetFileList archive with
  | Done files => ret (OK files)
  | Failed detail => ret (Err (ErrForeign detail))
  | Panicked value => panic value
  end.

Definition call_Load (mpqPath : string) : M (result MPQ) :=
  fun fs =>
    (Val match mpq_Load mpqPath fs with
         | inl detail => Err (ErrForeign detail)
         | inr archive => OK archive
         end, fs, [CallLoad mpqPath]).

Definition call_IoReadFile (path : string) : M (result bytes) :=
  fun fs =>
    (Val match ioutil_ReadFile path fs with
         | inl detail => Err (ErrForeign detail)
         | inr buf => OK buf
         end, fs, [CallIoReadFile path]).

(** A Go [error] result: [None] is nil. *)
Definition call_MkdirAll (dir : string) : M (option error) :=
  fun fs =>
    match os_MkdirAll dir fs with
    | (e, fs') => (Val (option_map ErrForeign e), fs', [CallMkdirAll dir])
    end.

Definition call_WriteFile (path : string) (data : bytes) : M (option error) :=
  fun fs =>
    match ioutil_WriteFile path data fs with
    | (e, fs') => (Val (option_map ErrForeign e), fs', [CallWriteFile path data])
    end.

(** ** ArchiveChain *)

(** archiveReadFile reads the contents of the given file from the MPQ
    archive.  [fmt.Sprint] of the recovered value is the value's text. *)
Definition archiveReadFile (i : nat) (archive : MPQ) (filePath : string)
  : M (result bytes) :=
  recover
    (r <- call_ReadFile i archive filePath ;;
     match r with
     | Err err => ret (Err (WithStack err))
     | OK data => ret (OK data)
     end)
    (fun e => ret (Err (Wrap ErrFileRead e))).

(** The search loop of readFile; [i] is the position of the head of
    [archives] in the chain.  The message of the wrapped ErrNotFound is
    kept as the path it quotes. *)
Fixpoint readFile_search (i : nat) (archives : list MPQ) (filePath : string)
  : M (result (bytes * string)) :=
  match archives with
  | [] => ret (Err (Wrap ErrNotFound filePath))
  | archive :: rest =>
      found <- call_FileExists i archive filePath ;;
      if negb found then readFile_search (S i) rest filePath
      else
        r <- archiveReadFile i archive filePath ;;
        match r with
        | Err err => ret (Err (WithStack err))
        | OK data => ret (OK (data, FileName archive))
        end
  end.

(** readFile reads the contents of the given file from the first MPQ
    archive containing the file path.  [filePath[0]] panics on the empty
    string. *)
Definition readFile (archives : list MPQ) (filePath : string)
  : M (result (bytes * string)) :=
  let filePath := strings_ToLower filePath in
  let filePath := strings_ReplaceAll filePath slash backslash in
  match String.get 0 filePath with
  | None => panic "index out of range [0] with length 0"
  | Some c =>
      let filePath :=
        if Ascii.eqb c backslash then slice_from 1 filePath else filePath in
      readFile_search 0 archives filePath
  end.

(** ** ExtractionPipeline *)

(** extractFile extracts the file from first MPQ archive containing the
    file path. *)
Definition extractFile (archives : list MPQ) (filePath : string) (lower : bool)
  : M (option error) :=
  emit (Stdout (MsgExtracting filePath)) ;;
  r <- readFile archives filePath ;;
  match r with
  | Err err => ret (Some (WithStack err))
  | OK (data, archiveName) =>
      let archiveDir := pathutil_FileName archiveName in
      let dstPath := normalize (filepath_Join ["_dump_"; archiveDir; filePath]) in
      let dstPath := if lower then strings_ToLower dstPath else dstPath in
      emit (Stdout (MsgCreating dstPath)) ;;
      let dir := filepath_Dir dstPath in
      e <- call_MkdirAll dir ;;
      match e with
      | Some err => ret (Some (WithStack err))
      | None =>
          e <- call_WriteFile dstPath data ;;
          match e with
          | Some err => ret (Some (WithStack err))
          | None => ret None
          end
      end
  end.

(** extractAllFiles extracts all files specified by file path from the MPQ
    archives. *)
Fixpoint extractAllFiles (archives : list MPQ) (filePaths : list string)
                         (lower : bool) : M (option error) :=
  match filePaths with
  | [] => ret None
  | filePath :: rest =>
      e <- extractFile archives filePath lower ;;
      match e with
      | None => extractAllFiles archives rest lower
      | Some err =>
          match Cause err with
          | ErrNotFound =>
              emit (Logged (MsgFileNotFound filePath)) ;;
              extractAllFiles archives rest lower
          | ErrFileRead =>
              emit (Logged (MsgFileReadError filePath err)) ;;
              extractAllFiles archives rest lower
          | _ => ret (Some (WithStack err))
          end
      end
  end.

(** ** ListResolver *)

(** The inner loop of the listfile filters: does any archive report the
    path, asking them in order and stopping at the first that does. *)
Fixpoint anyFileExists (i : nat) (archives : list MPQ) (filePath : string)
  : M bool :=
  match archives with
  | [] => ret false
  | archive :: rest =>
      found <- call_FileExists i archive filePath ;;
      if found then ret true else anyFileExists (S i) rest filePath
  end.

(** The scanner loop of the listfile filters over the scanned lines;
    [filePaths] is the slice built so far. *)
Fixpoint scanListfile (archives : list MPQ) (lines : list string)
                      (filePaths : list string) : M (list string) :=
  match lines with
  | [] => ret filePaths
  | line :: rest =>
      let filePath := denormalize line in
      found <- anyFileExists 0 archives filePath ;;
      scanListfile archives rest
        (if found then filePaths ++ [filePath] else filePaths)
  end.

(** getFilePathsFromListfile returns the list of file paths contained
    within the given listfile which are present in any of the MPQ
    archives. *)
Definition getFilePathsFromListfile (archives : list MPQ) (listfilePath : string)
  : M (result (list string)) :=
  r <- call_IoReadFile listfilePath ;;
  match r with
  | Err err => ret (Err (WithStack err))
  | OK buf =>
      filePaths <- scanListfile archives (bufio_Scan buf) [] ;;
      ret (OK filePaths)
  end.

(** getFilePathsFromBundledListfile returns the list of file paths
    contained within the bundled listfile which are present in any of the
    MPQ archives. *)
Definition getFilePathsFromBundledListfile (archives : list MPQ) (data : string)
  : M (result (list string)) :=
  filePaths <- scanListfile archives (bufio_Scan data) [] ;;
  ret (OK filePaths).

(** The loop of getFilePathsFromEmbeddedListfile. *)
Fixpoint embeddedLoop (i : nat) (archives : list MPQ) (filePaths : list string)
  : M (result (list string)) :=
  match archives with
  | [] => ret (OK filePaths)
  | archive :: rest =>
      r <- call_GetFileList i archive ;;
      match r with
      | Err err => ret (Err (WithStack err))
      | OK files => embeddedLoop (S i) rest (filePaths ++ files)
      end
  end.

(** getFilePathsFromEmbeddedListfile returns the list of file paths
    contained within the embedded (listfile) of each MPQ archive. *)
Definition getFilePathsFromEmbeddedListfile (archives : list MPQ)
  : M (result (list string)) :=
  embeddedLoop 0 archives [].

(** ** The parts every main shares

    Every main starts alike: the archive paths are the positional
    arguments or, without any, the well-known names under [mpqDir]; each
    is opened, and a failure to open one ends the run.  The call
    [mpq.InitializeCryptoBuffer()] before it returns nothing the program
    looks at and is left out. *)

Definition mpqNames : list string :=
  ["d2char.mpq"; "d2video.mpq"; "d2data.mpq"; "d2xmusic.mpq"; "d2exp.mpq";
   "d2xtalk.mpq"; "d2music.mpq"; "d2xvideo.mpq"; "d2sfx.mpq"; "d2speech.mpq"].

(** Get MPQ paths. *)
Definition getMpqPaths (args : list string) (mpqDir : string) : list string :=
  if Nat.eqb (List.length args) 0
  then args ++ map (fun mpqName => filepath_Join [mpqDir; mpqName]) mpqNames
  else args.

(** Open MPQ archives. *)
Fixpoint openArchives (mpqPaths : list string) (archives : list MPQ)
  : M (list MPQ) :=
  match mpqPaths with
  | [] => ret archives
  | mpqPath :: rest =>
      r <- call_Load mpqPath ;;
      match r with
      | Err err => log_Fatalf (FatalError (WithStack err))
      | OK archive => openArchives rest (archives ++ [archive])
      end
  end.

(** The tail shared by the two mains of src/main.go: de-normalize file
    paths, extract files. *)
Definition extractOrDie (archives : list MPQ) (filePaths : list string)
                        (lower : bool) : M unit :=
  let filePaths := map denormalize filePaths in
  e <- extractAllFiles archives filePaths lower ;;
  match e with
  | Some err => log_Fatalf (FatalError err)
  | None => ret tt
  end.

End Program.

(** ** main, src/cmd/MpqViewer/main.go: explicit list or embedded listing *)
Module Cmd.

Record Flags : Type := {
  all : bool;
  mpqDir : string;
  rawFilePaths : string;
  args : list string
}.

Section Main.
Context {E : Env}.

Fixpoint getFilePaths_loop (i : nat) (archives : list MPQ)
                           (filePaths : list string)
  : M (result (list string)) :=
  match archives with
  | [] => ret (OK filePaths)
  | archive :: rest =>
      emit (Stdout (MsgArchive (FileName archive))) ;;
      r <- call_GetFileList i archive ;;
      match r with
      | Err err => ret (Err (WithStack err))
      | OK files => getFilePaths_loop (S i) rest (filePaths ++ files)
      end
  end.

Definition getFilePaths (archives : list MPQ) : M (result (list string)) :=
  getFilePaths_loop 0 archives [].

(** Get file paths to extract. *)
Definition filePathsToExtract (fl : Flags) (archives : list MPQ)
  : M (list string) :=
  let filePaths :=
    if Nat.ltb 0 (String.length (rawFilePaths fl))
    then strings_Split (rawFilePaths fl) ","
    else [] in
  if Nat.eqb (List.length filePaths) 0 then
    if negb (all fl) then log_Fatalf FatalNoFiles
    else
      r <- getFilePaths archives ;;
      match r with
      | Err err => log_Fatalf (FatalError err)
      | OK files => ret files
      end
  else ret filePaths.

Definition main (fl : Flags) : M unit :=
  archives <- openArchives (getMpqPaths (args fl) (mpqDir fl)) [] ;;
  filePaths <- filePathsToExtract fl archives ;;
  e <- extractAllFiles archives filePaths false ;;
  match e with
  | Some err => log_Fatalf (FatalError err)
  | None => ret tt
  end.

End Main.
End Cmd.

(** ** main, src/main.go, first variant: explicit list, listfile or
    embedded listing *)
Module Listfile.

Record Flags : Type := {
  all : bool;
  mpqDir : string;
  listfilePath : string;
  rawFilePaths : string;
  args : list string
}.

Section Main.
Context {E : Env}.

(** Get file paths to extract. *)
Definition filePathsToExtract (fl : Flags) (archives : list MPQ)
  : M (list string) :=
  let filePaths :=
    if Nat.ltb 0 (String.length (rawFilePaths fl))
    then strings_Split (rawFilePaths fl) ","
    else [] in
  if Nat.eqb (List.length filePaths) 0 then
    if negb (all fl) then log_Fatalf FatalNoFiles
    else if Nat.ltb 0 (String.length (listfilePath fl)) then
      emit (Stdout MsgFromListfile) ;;
      r <- getFilePathsFromListfile archives (listfilePath fl) ;;
      match r with
      | Err err => log_Fatalf (FatalError err)
      | OK files => ret files
      end
    else
      emit (Stdout MsgFromEmbedded) ;;
      r <- getFilePathsFromEmbeddedListfile archives ;;
      match r with
      | Err err => log_Fatalf (FatalError err)
      | OK files => ret files
      end
  else ret filePaths.

Definition main (fl : Flags) : M unit :=
  archives <- openArchives (getMpqPaths (args fl) (mpqDir fl)) [] ;;
  filePaths <- filePathsToExtract fl archives ;;
  extractOrDie archives filePaths false.

End Main.
End Listfile.

(** ** main, src/main.go, second variant: explicit list, embedded
    listing, listfile or bundled listfile; lowercase destinations *)
Module Bundled.

Record Flags : Type := {
  all : bool;
  embedded : bool;
  rawFilePaths : string;
  listfilePath : string;
  lower : bool;
  mpqDir : string;
  args : list string
}.

Section Main.
Context {E : Env}.

(** Get file paths to extract. *)
Definition filePathsToExtract (fl : Flags) (archives : list MPQ)
  : M (list string) :=
  let filePaths :=
    if Nat.ltb 0 (String.length (rawFilePaths fl))
    then strings_Split (rawFilePaths fl) ","
    else [] in
  if Nat.eqb (List.length filePaths) 0 then
    if negb (all fl) then log_Fatalf FatalNoFiles
    else if embedded fl then
      emit (Stdout MsgFromEmbedded) ;;
      r <- getFilePathsFromEmbeddedListfile archives ;;
      match r with
      | Err err => log_Fatalf (FatalError err)
      | OK files => ret files
      end
    else if Nat.ltb 0 (String.length (listfilePath fl)) then
      emit (Stdout (MsgFromListfileAt (listfilePath fl))) ;;
      r <- getFilePathsFromListfile archives (listfilePath fl) ;;
      match r with
      | Err err => log_Fatalf (FatalError err)
      | OK files => ret files
      end
    else
      emit (Stdout MsgFromBundled) ;;
      r <- getFilePathsFromBundledListfile archives rawListfile ;;
      match r with
      | Err err => log_Fatalf (FatalError err)
      | OK files => ret files
      end
  else ret filePaths.

Definition main (fl : Flags) : M unit :=
  archives <- openArchives (getMpqPaths (args fl) (mpqDir fl)) [] ;;
  filePaths <- filePathsToExtract fl archives ;;
  extractOrDie archives filePaths (lower fl).

End Main.
End Bundled.

(** ** A concrete environment

    A Unix host with ASCII file names, used to run the program on concrete
    inputs: the library functions as their documentation describes them on
    such names, and a disk on which listed paths cannot be created. *)
Module Sim.

Definition lower_byte (c : ascii) : ascii :=
  let n := nat_of_ascii c in
  if (65 <=? n)%nat && (n <=? 90)%nat then ascii_of_nat (n + 32) else c.

(** [strings.ToLower] on ASCII text. *)
Fixpoint ToLower (s : string) : string :=
  match s with
  | EmptyString => EmptyString
  | String c rest => String (lower_byte c) (ToLower rest)
  end.

(** The path elements that remain after [filepath.Clean]; [stack] holds
    the elements kept so far, last first. *)
Fixpoint clean_elements (rooted : bool) (elems stack : list string)
  : list string :=
  match elems with
  | [] => rev stack
  | e :: rest =>
      if (e =? "") || (e =? ".") then clean_elements rooted rest stack
      else if e =? ".." then
        match stack with
        | top :: below =>
            if top =? ".." then clean_elements rooted rest (e :: stack)
            else clean_elements rooted rest below
        | [] =>
            if rooted then clean_elements rooted rest []
            else clean_elements rooted rest [e]
        end
      else clean_elements rooted rest (e :: stack)
  end.

(** [filepath.Clean]. *)
Definition Clean (path : string) : string :=
  if path =? "" then "."
  else
    let rooted := strings_HasPrefix path "/" in
    let out := String.concat "/" (clean_elements rooted (strings_Split path "/") []) in
    let out := if rooted then String.append "/" out else out in
    if out =? "" then "." else out.

(** [filepath.Join]: from the first non-empty element on, joined by the
    separator and cleaned. *)
Fixpoint Join (elem : list string) : string :=
  match elem with
  | [] => ""
  | e :: rest => if e =? "" then Join rest else Clean (String.concat "/" elem)
  end.

(** The text up to and including the last separator, and the text after
    it. *)
Fixpoint split_last (path : string) : string * string :=
  match path with
  | EmptyString => (EmptyString, EmptyString)
  | String c rest =>
      let (dir, file) := split_last rest in
      if Ascii.eqb c slash then
        (String c dir, file)
      else if dir =? "" then (EmptyString, String c file)
      else (String c dir, file)
  end.

(** [filepath.Dir]. *)
Definition Dir (path : string) : string := Clean (fst (split_last path)).

(** [s] without its trailing separators. *)
Fixpoint trim_slashes (s : string) : string :=
  match s with
  | EmptyString => EmptyString
  | String c rest =>
      let rest' := trim_slashes rest in
      if Ascii.eqb c slash && (rest' =? "") then EmptyString
      else String c rest'
  end.

(** [filepath.Base]. *)
Definition Base (path : string) : string :=
  if path =? "" then "."
  else
    let path := trim_slashes path in
    if path =? "" then "/" else snd (split_last path).

(** [s] up to its last dot, when it has one. *)
Fixpoint before_last_dot (s : string) : option string :=
  match s with
  | EmptyString => None
  | String c rest =>
      match before_last_dot rest with
      | Some stem => Some (String c stem)
      | None => if Ascii.eqb c "."%char then Some EmptyString else None
      end
  end.

(** [pathutil.FileName]: the base name without its extension. *)
Definition FileNameOf (path : string) : string :=
  let base := Base path in
  match before_last_dot base with
  | Some stem => stem
  | None => base
  end.

Definition newline : ascii := "010"%char.
Definition carriage_return : ascii := "013"%char.

(** [s] without one trailing carriage return. *)
Fixpoint dropCR (s : string) : string :=
  match s with
  | EmptyString => EmptyString
  | String c EmptyString =>
      if Ascii.eqb c carriage_return then EmptyString else s
  | String c rest => String c (dropCR rest)
  end.

(** The most bytes a line can have before its newline: with the newline
    it then fills the scanner's buffer of [bufio.MaxScanTokenSize]
    (64 * 1024) bytes. *)
Definition maxLineLength : N := 65535%N.

(** The string of the given bytes, which come last first, before [tail]. *)
Fixpoint string_of_rev (line : list ascii) (tail : string) : string :=
  match line with
  | [] => tail
  | c :: rest => string_of_rev rest (String c tail)
  end.

(** The lines a [bufio.Scanner] with [bufio.ScanLines] yields: [line]
    holds the bytes of the current line, last first, and [room] the
    bytes it can still take.  A line that fills the buffer before its
    newline ends the scan: [Scan] returns false with ErrTooLong, and the
    lines after it are never yielded. *)
Fixpoint scan_lines (s : string) (line : list ascii) (room : N) : list string :=
  match s with
  | EmptyString =>
      match line with
      | [] => []
      | _ => [dropCR (string_of_rev line "")]
      end
  | String c rest =>
      if Ascii.eqb c newline
      then dropCR (string_of_rev line "") :: scan_lines rest [] maxLineLength
      else if N.eqb room 0 then []
      else scan_lines rest (c :: line) (N.pred room)
  end.

Definition Scan (s : string) : list string := scan_lines s [] maxLineLength.

(** The disk: text files, archive files, and the paths that can be
    neither created nor written. *)
Record Disk : Type := {
  textFiles : list (string * bytes);
  mpqFiles : list (string * MPQ);
  denied : list string
}.

Fixpoint lookup {A} (key : string) (table : list (string * A)) : option A :=
  match table with
  | [] => None
  | (k, v) :: rest => if k =? key then Some v else lookup key rest
  end.

Definition is_denied (path : string) (d : Disk) : bool :=
  existsb (String.eqb path) (denied d).

Definition MkdirAll (dir : string) (d : Disk) : option string * Disk :=
  if is_denied dir d then (Some "permission denied", d) else (None, d).

Definition WriteFile (path : string) (data : bytes) (d : Disk)
  : option string * Disk :=
  if is_denied path d then (Some "permission denied", d)
  else (None, {| textFiles := (path, data) :: textFiles d;
                 mpqFiles := mpqFiles d;
                 denied := denied d |}).

Definition IoReadFile (path : string) (d : Disk) : string + bytes :=
  match lookup path (textFiles d) with
  | Some buf => inr buf
  | None => inl "no such file or directory"
  end.

Definition Load (mpqPath : string) (d : Disk) : string + MPQ :=
  match lookup mpqPath (mpqFiles d) with
  | Some archive => inr archive
  | None => inl "no such file or directory"
  end.

Definition env : Env := {|
  strings_ToLower := ToLower;
  strings_ToLower_empty := eq_refl;
  filepath_Join := Join;
  filepath_Dir := Dir;
  pathutil_FileName := FileNameOf;
  bufio_Scan := Scan;
  rawListfile := String.append "data\global\excel\books.txt" (String newline "");
  FS := Disk;
  os_MkdirAll := MkdirAll;
  ioutil_WriteFile := WriteFile;
  ioutil_ReadFile := IoReadFile;
  mpq_Load := Load
|}.

(** An archive holding the given files under their native lower-case
    names. *)
Definition archiveOf (name : string) (files : list (string * bytes)) : MPQ := {|
  FileName := name;
  FileExists := fun key =>
    match lookup key files with Some _ => true | None => false end;
  ReadFile := fun key =>
    match lookup key files with
    | Some data => Done data
    | None => Failed "file not found"
    end;
  GetFileList := Done (map fst files)
|}.

(** An archive whose hash table lists the given names but whose blocks
    are damaged: every read panics. *)
Definition damagedArchive (name : string) (keys : list string) : MPQ := {|
  FileName := name;
  FileExists := fun key => existsb (String.eqb key) keys;
  ReadFile := fun _ => Panicked "runtime error: slice bounds out of range";
  GetFileList := Done keys
|}.

Definition emptyDisk : Disk :=
  {| textFiles := []; mpqFiles := []; denied := [] |}.

(** Two archives holding the same path with different contents. *)
Definition archiveA : MPQ := archiveOf "A.mpq" [("data\x.txt", "1")].
Definition archiveB : MPQ :=
  archiveOf "B.mpq" [("data\x.txt", "2"); ("data\y.txt", "3")].

(** An archive that lists data\x.txt and panics when it is read. *)
Definition archiveD : MPQ := damagedArchive "D.mpq" ["data\x.txt"].

(** An archive with mixed-case entries. *)
Definition archiveM : MPQ :=
  archiveOf "d2data.mpq" [("Data\Global\Excel\Books.txt", "books")].

(** A disk holding the two archives and a listfile. *)
Definition gameDisk : Disk := {|
  textFiles :=
    [("listfile.txt",
      String.append "data/x.txt"
        (String newline (String.append "data/missing.txt" (String newline ""))))];
  mpqFiles := [("A.mpq", archiveA); ("B.mpq", archiveB)];
  denied := []
|}.

(** The same disk with a dump directory that cannot be created. *)
Definition readOnlyDisk : Disk := {|
  textFiles := textFiles gameDisk;
  mpqFiles := mpqFiles gameDisk;
  denied := ["_dump_/A/data"]
|}.


(** An archive that lists data\x.txt and whose read returns an error. *)
Definition archiveF : MPQ := {|
  FileName := "F.mpq";
  FileExists := fun key => key =? "data\x.txt";
  ReadFile := fun _ => Failed "checksum mismatch";
  GetFileList := Done ["data\x.txt"]
|}.

(** An archive whose embedded listing cannot be read. *)
Definition archiveL : MPQ := {|
  FileName := "L.mpq";
  FileExists := fun _ => false;
  ReadFile := fun _ => Failed "file not found";
  GetFileList := Failed "no (listfile) in archive"
|}.

(** A line of 65536 bytes, one more than fits the scanner's buffer
    together with its newline. *)
Definition oversizedLine : string := N.iter 65536 (String "a"%char) "".

(** A listfile whose first line is oversized and whose second line is a
    path [archiveA] holds. *)
Definition oversizedListfile : string :=
  String.append oversizedLine
    (String newline (String.append "data/x.txt" (String newline ""))).

(** A disk holding that listfile. *)
Definition oversizedDisk : Disk := {|
  textFiles := [("big.txt", oversizedListfile)];
  mpqFiles := [("A.mpq", archiveA)];
  denied := []
|}.

End Sim.

(** ** Vocabulary of the statements *)

(** Does the byte occur in the string. *)
Fixpoint hasByte (c : ascii) (s : string) : bool :=
  match s with
  | EmptyString => false
  | String c' rest => Ascii.eqb c' c || hasByte c rest
  end.

(** [p] with its leading forward separator removed, when it has one. *)
Definition trimLeadingSlash (p : string) : string :=
  if strings_HasPrefix p "/" then slice_from 1 p else p.

(** Prefix the events of a run with earlier events. *)
Definition after {E : Env} {A} (evs : list event) (run : res A * FS * list event)
  : res A * FS * list event :=
  match run with
  | (r, fs, evs') => (r, fs, evs ++ evs')
  end.

(** The existence checks of the archives at positions [i], [i+1], ...,
    one per archive of [archives]. *)
Definition probes (i : nat) (archives : list MPQ) (key : string) : list event :=
  map (fun j => CallFileExists j key) (seq i (List.length archives)).

(** None of the archives reports the key. *)
Definition misses (archives : list MPQ) (key : string) : Prop :=
  forall archive, In archive archives -> FileExists archive key = false.

(** An existence check or a read on the given key. *)
Definition isLookup (key : string) (e : event) : Prop :=
  exists j, e = CallFileExists j key \/ e = CallReadFile j key.

(** The keys handed to [FileExists] and [ReadFile] in a run. *)
Fixpoint keysPassed (evs : list event) : list string :=
  match evs with
  | [] => []
  | CallFileExists _ key :: rest => key :: keysPassed rest
  | CallReadFile _ key :: rest => key :: keysPassed rest
  | _ :: rest => keysPassed rest
  end.

(** The archives asked anything in a run, by position. *)
Fixpoint consulted (evs : list event) : list nat :=
  match evs with
  | [] => []
  | CallFileExists i _ :: rest => i :: consulted rest
  | CallReadFile i _ :: rest => i :: consulted rest
  | CallGetFileList i :: rest => i :: consulted rest
  | _ :: rest => consulted rest
  end.

Section Vocabulary.
Context {E : Env}.

(** The lookup key readFile computes from a path before it searches the
    chain; there is none when indexing the first byte panics. *)
Definition lookupKey (filePath : string) : option string :=
  let lowered := strings_ReplaceAll (strings_ToLower filePath) slash backslash in
  match String.get 0 lowered with
  | None => None
  | Some c => Some (if Ascii.eqb c backslash then slice_from 1 lowered else lowered)
  end.

(** What the caller of readFile gets once [archive] reported the key. *)
Definition served (archive : MPQ) (key : string) : result (bytes * string) :=
  match ReadFile archive key with
  | Done data => OK (data, FileName archive)
  | Failed detail => Err (WithStack (WithStack (ErrForeign detail)))
  | Panicked value => Err (WithStack (Wrap ErrFileRead value))
  end.

(** Native form as the specification words it, with the case folding of
    the environment: backslash-separated, no leading separator,
    lower-cased. *)
Definition isNativeLower (key : string) : bool :=
  negb (hasByte slash key)
  && negb (strings_HasPrefix key "\")
  && (strings_ToLower key =? key).

(** The destination of an extracted resource. *)
Definition destination (lower : bool) (archiveName filePath : string) : string :=
  let unset :=
    normalize (filepath_Join ["_dump_"; pathutil_FileName archiveName; filePath]) in
  if lower then strings_ToLower unset else unset.

(** Creating the parent directories of [dstPath] and writing [data] to
    it: the result and the calls made. *)
Definition writeOut (dstPath : string) (data : bytes) (fs : FS)
  : res (option error) * FS * list event :=
  let dir := filepath_Dir dstPath in
  match os_MkdirAll dir fs with
  | (Some detail, fs1) =>
      (Val (Some (WithStack (ErrForeign detail))), fs1, [CallMkdirAll dir])
  | (None, fs1) =>
      match ioutil_WriteFile dstPath data fs1 with
      | (Some detail, fs2) =>
          (Val (Some (WithStack (ErrForeign detail))), fs2,
           [CallMkdirAll dir; CallWriteFile dstPath data])
      | (None, fs2) =>
          (Val None, fs2, [CallMkdirAll dir; CallWriteFile dstPath data])
      end
  end.

(** Does some archive report the native form of the line. *)
Definition present (archives : list MPQ) (line : string) : bool :=
  existsb (fun archive => FileExists archive (denormalize line)) archives.

(** The entries a listfile line contributes to the candidate list. *)
Definition contribution (archives : list MPQ) (line : string) : list string :=
  if present archives line then [denormalize line] else [].

(** The candidate list of a listfile, as the specification describes it. *)
Definition listed (archives : list MPQ) (lines : list string) : list string :=
  flat_map (contribution archives) lines.

(** The line log.Printf writes for a skipped path. *)
Definition skipLine (filePath : string) (err : error) : message :=
  match Cause err with
  | ErrNotFound => MsgFileNotFound filePath
  | _ => MsgFileReadError filePath err
  end.

End Vocabulary.

(** ** Vocabulary of the further properties *)

(** An existence check, on any key. *)
Definition isProbe (e : event) : Prop :=
  exists j key, e = CallFileExists j key.

(** The paths announced by extractFile in a run, in order. *)
Fixpoint attempted (evs : list event) : list string :=
  match evs with
  | [] => []
  | Stdout (MsgExtracting filePath) :: rest => filePath :: attempted rest
  | _ :: rest => attempted rest
  end.

(** The files handed to [ioutil.WriteFile] in a run, in order. *)
Fixpoint written (evs : list event) : list (string * bytes) :=
  match evs with
  | [] => []
  | CallWriteFile path data :: rest => (path, data) :: written rest
  | _ :: rest => written rest
  end.

(** The paths logged as skipped in a run, in order. *)
Fixpoint skipped (evs : list event) : list string :=
  match evs with
  | [] => []
  | Logged (MsgFileNotFound filePath) :: rest => filePath :: skipped rest
  | Logged (MsgFileReadError filePath _) :: rest => filePath :: skipped rest
  | _ :: rest => skipped rest
  end.

(** The paths logged as not found in a run, in order. *)
Fixpoint loggedNotFound (evs : list event) : list string :=
  match evs with
  | [] => []
  | Logged (MsgFileNotFound filePath) :: rest => filePath :: loggedNotFound rest
  | _ :: rest => loggedNotFound rest
  end.

(** The listing calls of the archives at positions [i], ..., [i+n-1]. *)
Definition listings (i n : nat) : list event :=
  map CallGetFileList (seq i n).

(** The archive announcements and listing calls of the first variant of
    getFilePaths, for the archives at positions [i], [i+1], ... *)
Fixpoint announcedListings (i : nat) (archives : list MPQ) : list event :=
  match archives with
  | [] => []
  | archive :: rest =>
      Stdout (MsgArchive (FileName archive)) :: CallGetFileList i
        :: announcedListings (S i) rest
  end.

(** Each archive lists the files of the list at its position. *)
Definition lists (archives : list MPQ) (files : list (list string)) : Prop :=
  Forall2 (fun archive l => GetFileList archive = Done l) archives files.

Section FurtherVocabulary.
Context {E : Env}.

(** Each path opens as the archive at its position. *)
Definition opens (fs : FS) (mpqPaths : list string) (archives : list MPQ) : Prop :=
  Forall2 (fun mpqPath archive => mpq_Load mpqPath fs = inr archive)
          mpqPaths archives.

End FurtherVocabulary.

(** * Properties *)

(** ** PathCodec *)

Lemma ReplaceAll_fresh s old new :
  hasByte old s = false -> strings_ReplaceAll s old new = s.
Proof.
  induction s as [|c s IH]; simpl; intros H; [reflexivity|].
  apply orb_false_iff in H as [Hc Hs].
  rewrite Hc, (IH Hs). reflexivity.
Qed.

Lemma ReplaceAll_removes s old new :
  old <> new -> hasByte old (strings_ReplaceAll s old new) = false.
Proof.
  intros Hne. induction s as [|c s IH]; simpl; [reflexivity|].
  rewrite IH, orb_false_r.
  destruct (Ascii.eqb_spec c old) as [->|Hc].
  - apply Ascii.eqb_neq. congruence.
  - apply Ascii.eqb_neq. exact Hc.
Qed.

Lemma hasByte_slice_from n c s :
  hasByte c s = false -> hasByte c (slice_from n s) = false.
Proof.
  revert s. induction n as [|n IH]; intros s H; [exact H|].
  destruct s as [|c' s]; [reflexivity|]. simpl in *.
  apply orb_false_iff in H as [_ Hs]. apply IH, Hs.
Qed.

Lemma denormalize_no_slash s : hasByte slash (denormalize s) = false.
Proof.
  unfold denormalize.
  assert (H : hasByte slash (strings_ReplaceAll s slash backslash) = false)
    by (apply ReplaceAll_removes; discriminate).
  destruct (strings_HasPrefix _ _); [apply hasByte_slice_from|]; exact H.
Qed.

Lemma HasPrefix_byte s c :
  strings_HasPrefix s (String c "") =
  match s with
  | String c' _ => Ascii.eqb c' c
  | EmptyString => false
  end.
Proof.
  unfold strings_HasPrefix. destruct s as [|c' s]; simpl; [reflexivity|].
  destruct (ascii_dec c c') as [->|Hne].
  - rewrite Ascii.eqb_refl. destruct s; reflexivity.
  - symmetry. apply Ascii.eqb_neq. congruence.
Qed.

Lemma ReplaceAll_both s :
  strings_ReplaceAll (strings_ReplaceAll s slash backslash) backslash slash =
  strings_ReplaceAll s backslash slash.
Proof.
  induction s as [|c s IH]; simpl; [reflexivity|]. rewrite IH. f_equal.
  destruct (Ascii.eqb_spec c slash) as [->|Hs]; [reflexivity|].
  reflexivity.
Qed.

Lemma normalize_slice_from n s :
  normalize (slice_from n s) = slice_from n (normalize s).
Proof.
  revert s. induction n as [|n IH]; intros s; [reflexivity|].
  destruct s as [|c s]; [reflexivity|]. simpl. apply IH.
Qed.

Lemma normalize_denormalize_any p :
  normalize (denormalize p) = trimLeadingSlash (normalize p).
Proof.
  unfold denormalize, trimLeadingSlash.
  rewrite !HasPrefix_byte.
  destruct p as [|c p]; [reflexivity|].
  cbn [strings_ReplaceAll normalize].
  destruct (Ascii.eqb_spec c slash) as [->|Hs].
  - cbn. fold (normalize (strings_ReplaceAll p slash backslash)).
    unfold normalize. now rewrite ReplaceAll_both.
  - destruct (Ascii.eqb_spec c backslash) as [->|Hb].
    + cbn. unfold normalize. now rewrite ReplaceAll_both.
    + apply Ascii.eqb_neq in Hs, Hb. unfold normalize. cbn.
      change (Ascii.eqb c "\"%char) with (Ascii.eqb c backslash).
      change (Ascii.eqb c "/"%char) with (Ascii.eqb c slash).
      rewrite Hs, Hb. cbn.
      change (Ascii.eqb c "\"%char) with (Ascii.eqb c backslash).
      rewrite Hb. now rewrite ReplaceAll_both.
Qed.

(** C4. For every canonical path [p] (forward-separated: no backslash in
    it), converting to native form with [denormalize] and back with
    [normalize] gives [p] without its leading separator.  Both
    conversions are total functions. *)
Theorem normalize_denormalize_roundtrip (p : string) :
  hasByte backslash p = false ->
  normalize (denormalize p) = trimLeadingSlash p.
Proof.
  intros Hp. rewrite normalize_denormalize_any.
  unfold normalize. now rewrite (ReplaceAll_fresh p backslash slash Hp).
Qed.

Lemma normalize_denormalize_roundtrip_witness :
  hasByte backslash "/data/global/excel/books.txt" = false /\
  normalize (denormalize "/data/global/excel/books.txt") =
  "data/global/excel/books.txt".
Proof.
  split; [reflexivity|].
  apply (normalize_denormalize_roundtrip "/data/global/excel/books.txt").
  reflexivity.
Defined.

(** ** ArchiveChain *)

Section ArchiveChain.
Context {E : Env}.

Lemma after_nil {A} (run : res A * FS * list event) : after [] run = run.
Proof. destruct run as [[r fs] evs]. reflexivity. Qed.

Lemma after_after {A} evs1 evs2 (run : res A * FS * list event) :
  after evs1 (after evs2 run) = after (evs1 ++ evs2) run.
Proof. destruct run as [[r fs] evs]. simpl. now rewrite app_assoc. Qed.

Lemma bind_emit {A} e (k : unit -> M A) fs :
  bind (emit e) k fs = after [e] (k tt fs).
Proof. unfold bind, emit, after. destruct (k tt fs) as [[r fs'] evs]. reflexivity. Qed.

Lemma bind_pure {A B} (m : M A) (k : A -> M B) fs a :
  m fs = (Val a, fs, []) -> bind m k fs = k a fs.
Proof.
  intros Hm. unfold bind. rewrite Hm.
  destruct (k a fs) as [[r fs'] evs]. reflexivity.
Qed.

Lemma readFile_key archives filePath fs :
  readFile archives filePath fs =
  match lookupKey filePath with
  | None => (Panic "index out of range [0] with length 0", fs, [])
  | Some key => readFile_search 0 archives key fs
  end.
Proof.
  unfold readFile, lookupKey.
  destruct (String.get 0 _); reflexivity.
Qed.

Lemma archiveReadFile_run i archive key fs :
  archiveReadFile i archive key fs =
  (Val match ReadFile archive key with
       | Done data => OK data
       | Failed detail => Err (WithStack (ErrForeign detail))
       | Panicked value => Err (Wrap ErrFileRead value)
       end, fs, [CallReadFile i key]).
Proof.
  unfold archiveReadFile, recover, call_ReadFile, bind, emit, ret, panic.
  destruct (ReadFile archive key); reflexivity.
Qed.

Lemma readFile_search_cons i archive rest key fs :
  readFile_search i (archive :: rest) key fs =
  after [CallFileExists i key]
    (if FileExists archive key
     then (Val (served archive key), fs, [CallReadFile i key])
     else readFile_search (S i) rest key fs).
Proof.
  cbn [readFile_search]. unfold call_FileExists.
  unfold bind at 1. rewrite bind_emit. unfold ret at 1, after at 1.
  destruct (FileExists archive key); cbn [negb app].
  - unfold bind. rewrite archiveReadFile_run. unfold served, ret.
    destruct (ReadFile archive key); reflexivity.
  - destruct (readFile_search (S i) rest key fs) as [[r fs'] evs].
    reflexivity.
Qed.

Lemma readFile_search_hit i archive post key fs :
  FileExists archive key = true ->
  readFile_search i (archive :: post) key fs =
  (Val (served archive key), fs, [CallFileExists i key; CallReadFile i key]).
Proof.
  intros Hhit. rewrite readFile_search_cons, Hhit. reflexivity.
Qed.

Lemma readFile_search_miss i pre tail key fs :
  misses pre key ->
  readFile_search i (pre ++ tail) key fs =
  after (probes i pre key) (readFile_search (i + List.length pre) tail key fs).
Proof.
  revert i. induction pre as [|archive pre IH]; intros i Hmiss.
  - simpl. rewrite Nat.add_0_r. unfold probes. simpl. now rewrite after_nil.
  - rewrite <- app_comm_cons, readFile_search_cons.
    rewrite (Hmiss archive (or_introl eq_refl)).
    rewrite IH by (intros b Hb; apply Hmiss; right; exact Hb).
    rewrite after_after. cbn [List.length]. rewrite Nat.add_succ_comm.
    reflexivity.
Qed.

Lemma readFile_search_none i archives key fs :
  misses archives key ->
  readFile_search i archives key fs =
  (Val (Err (Wrap ErrNotFound key)), fs, probes i archives key).
Proof.
  intros Hmiss.
  rewrite <- (app_nil_r archives) at 1.
  rewrite readFile_search_miss by exact Hmiss.
  simpl. unfold ret. now rewrite app_nil_r.
Qed.

Lemma readFile_search_first i pre archive post key fs :
  misses pre key ->
  FileExists archive key = true ->
  readFile_search i (pre ++ archive :: post) key fs =
  (Val (served archive key), fs,
   probes i pre key ++ [CallFileExists (i + List.length pre) key;
                        CallReadFile (i + List.length pre) key]).
Proof.
  intros Hmiss Hhit.
  rewrite readFile_search_miss by exact Hmiss.
  now rewrite readFile_search_hit by exact Hhit.
Qed.

Lemma readFile_search_events i archives key fs :
  Forall (isLookup key) (snd (readFile_search i archives key fs))
  /\ snd (fst (readFile_search i archives key fs)) = fs.
Proof.
  revert i. induction archives as [|archive rest IH]; intros i.
  - cbn. now split.
  - rewrite readFile_search_cons.
    destruct (FileExists archive key).
    + cbn. split; [|reflexivity].
      repeat constructor; exists i; [now left | now right].
    + destruct (IH (S i)) as [Hevs Hfs].
      destruct (readFile_search (S i) rest key fs) as [[r fs'] evs].
      cbn in *. split; [|exact Hfs].
      constructor; [exists i; now left | exact Hevs].
Qed.

Lemma readFile_events archives filePath fs :
  forall e, In e (snd (readFile archives filePath fs)) ->
  exists key, lookupKey filePath = Some key /\ isLookup key e.
Proof.
  intros e. rewrite readFile_key.
  destruct (lookupKey filePath) as [key|]; [|intros []].
  intros He. exists key. split; [reflexivity|].
  destruct (readFile_search_events 0 archives key fs) as [Hall _].
  rewrite Forall_forall in Hall. now apply Hall.
Qed.

End ArchiveChain.

Lemma consulted_app evs1 evs2 :
  consulted (evs1 ++ evs2) = consulted evs1 ++ consulted evs2.
Proof.
  induction evs1 as [|e evs1 IH]; [reflexivity|].
  destruct e; simpl; now rewrite IH.
Qed.

Lemma consulted_probes i archives key :
  consulted (probes i archives key) = seq i (List.length archives).
Proof.
  unfold probes. generalize (List.length archives) as n. intros n. revert i.
  induction n as [|n IH]; intros i; [reflexivity|].
  simpl. now rewrite IH.
Qed.

Lemma keysPassed_app evs1 evs2 :
  keysPassed (evs1 ++ evs2) = keysPassed evs1 ++ keysPassed evs2.
Proof.
  induction evs1 as [|e evs1 IH]; [reflexivity|].
  destruct e; simpl; now rewrite IH.
Qed.

Lemma keysPassed_probes i archives key k :
  In k (keysPassed (probes i archives key)) -> k = key.
Proof.
  unfold probes. generalize (List.length archives) as n. intros n. revert i.
  induction n as [|n IH]; intros i; simpl; [tauto|].
  intros [H|H]; [now symmetry | now apply (IH (S i))].
Qed.

Section Resolution.
Context {E : Env}.

(** C1. Resolution returns the first archive, in input order, that
    reports the path: when the archives before [archive] do not report
    the lookup key of the path and [archive] does, readFile asks the
    archives up to [archive] and no later one, reads from [archive], and
    on a successful read returns its data and its display name.  With
    nothing before it, [archive] is the archive at index 0, whatever the
    archive at index 1 reports. *)
Theorem readFile_first_reporting_archive
    (pre : list MPQ) (archive : MPQ) (post : list MPQ)
    (filePath key : string) (fs : FS) :
  lookupKey filePath = Some key ->
  misses pre key ->
  FileExists archive key = true ->
  readFile (pre ++ archive :: post) filePath fs =
    (Val (served archive key), fs,
     probes 0 pre key ++ [CallFileExists (List.length pre) key;
                          CallReadFile (List.length pre) key])
  /\ (forall data, ReadFile archive key = Done data ->
        served archive key = OK (data, FileName archive))
  /\ (forall j,
        In j (consulted (snd (readFile (pre ++ archive :: post) filePath fs))) ->
        j <= List.length pre).
Proof.
  intros Hkey Hmiss Hhit.
  assert (Hrun : readFile (pre ++ archive :: post) filePath fs =
    (Val (served archive key), fs,
     probes 0 pre key ++ [CallFileExists (List.length pre) key;
                          CallReadFile (List.length pre) key])).
  { rewrite readFile_key, Hkey.
    now rewrite readFile_search_first by assumption. }
  split; [exact Hrun|]. split.
  - intros data Hdata. unfold served. now rewrite Hdata.
  - intros j. rewrite Hrun. cbn [snd].
    rewrite consulted_app, consulted_probes, in_app_iff, in_seq.
    simpl. intros [H|[H|[H|[]]]]; lia.
Qed.

(** The priority of index 0 over index 1, read off the search loop. *)
Lemma readFile_index_0_over_1 (a0 a1 : MPQ) (rest : list MPQ)
    (filePath key : string) (fs : FS) :
  lookupKey filePath = Some key ->
  FileExists a0 key = true ->
  FileExists a1 key = true ->
  readFile (a0 :: a1 :: rest) filePath fs =
    (Val (served a0 key), fs, [CallFileExists 0 key; CallReadFile 0 key]).
Proof.
  intros Hkey H0 _. rewrite readFile_key, Hkey.
  now apply readFile_search_hit.
Qed.

(** C10. Once an archive reports the path, a failed read of that
    archive (a returned error or a recovered panic) is what readFile
    returns: no archive after it is asked, whatever the later archives
    hold. *)
Theorem readFile_no_fallback
    (pre : list MPQ) (archive : MPQ) (post : list MPQ)
    (filePath key : string) (fs : FS) :
  lookupKey filePath = Some key ->
  misses pre key ->
  FileExists archive key = true ->
  (forall data, ReadFile archive key <> Done data) ->
  exists err,
    readFile (pre ++ archive :: post) filePath fs =
      (Val (Err err), fs,
       probes 0 pre key ++ [CallFileExists (List.length pre) key;
                            CallReadFile (List.length pre) key])
    /\ (forall value, ReadFile archive key = Panicked value ->
          err = WithStack (Wrap ErrFileRead value) /\ Cause err = ErrFileRead)
    /\ (forall detail, ReadFile archive key = Failed detail ->
          Cause err = ErrForeign detail).
Proof.
  intros Hkey Hmiss Hhit Hfail.
  rewrite readFile_key, Hkey.
  rewrite readFile_search_first by assumption.
  unfold served. destruct (ReadFile archive key) as [data|detail|value].
  - now destruct (Hfail data).
  - eexists. split; [reflexivity|]. split.
    + intros value Hv. discriminate Hv.
    + intros d Hd. now injection Hd as ->.
  - eexists. split; [reflexivity|]. split.
    + intros v Hv. injection Hv as ->. now split.
    + intros d Hd. discriminate Hd.
Qed.

(** C5. The conversion to native form is safe on the two edge cases: the
    empty path and the path that is only a separator both give the empty
    native path.  The stripping inside readFile is not: on the empty
    path it indexes byte 0 of the empty string and panics, before any
    archive is asked and outside the recover of archiveReadFile. *)
Theorem readFile_empty_path_panics (archives : list MPQ) (fs : FS) :
  denormalize "" = "" /\
  denormalize "/" = "" /\
  readFile archives (denormalize "/") fs =
    (Panic "index out of range [0] with length 0", fs, []).
Proof.
  split; [reflexivity|]. split; [reflexivity|].
  rewrite readFile_key. unfold lookupKey.
  change (denormalize "/") with "".
  now rewrite strings_ToLower_empty.
Qed.

End Resolution.

(** ** ExtractionPipeline *)

Section Pipeline.
Context {E : Env}.

Lemma writeOut_run dstPath data fs :
  bind (call_MkdirAll (filepath_Dir dstPath))
    (fun e =>
       match e with
       | Some err => ret (Some (WithStack err))
       | None =>
           bind (call_WriteFile dstPath data)
             (fun e =>
                match e with
                | Some err => ret (Some (WithStack err))
                | None => ret None
                end)
       end) fs = writeOut dstPath data fs.
Proof.
  unfold writeOut, bind, call_MkdirAll, call_WriteFile, ret.
  destruct (os_MkdirAll (filepath_Dir dstPath) fs) as [[detail|] fs1]; simpl.
  - reflexivity.
  - destruct (ioutil_WriteFile dstPath data fs1) as [[detail|] fs2]; reflexivity.
Qed.

Lemma extractFile_unfold archives filePath lower fs :
  extractFile archives filePath lower fs =
  after [Stdout (MsgExtracting filePath)]
    match readFile archives filePath fs with
    | (Val (Err err), fs1, evs) => (Val (Some (WithStack err)), fs1, evs)
    | (Val (OK (data, name)), fs1, evs) =>
        let dst := destination lower name filePath in
        after (evs ++ [Stdout (MsgCreating dst)]) (writeOut dst data fs1)
    | (Panic v, fs1, evs) => (Panic v, fs1, evs)
    | (Exit f, fs1, evs) => (Exit f, fs1, evs)
    end.
Proof.
  unfold extractFile. rewrite bind_emit. f_equal.
  unfold bind at 1.
  destruct (readFile archives filePath fs) as [[[[[data name]|err]|v|f] fs1] evs];
    try reflexivity.
  - rewrite bind_emit, writeOut_run. fold (destination lower name filePath).
    destruct (writeOut _ data fs1) as [[r fs2] evs2]. simpl.
    now rewrite <- app_assoc.
  - unfold ret. now rewrite app_nil_r.
Qed.

Lemma extractAllFiles_cons archives filePath rest lower fs :
  extractAllFiles archives (filePath :: rest) lower fs =
  match extractFile archives filePath lower fs with
  | (Val None, fs1, evs) => after evs (extractAllFiles archives rest lower fs1)
  | (Val (Some err), fs1, evs) =>
      match Cause err with
      | ErrNotFound | ErrFileRead =>
          after (evs ++ [Logged (skipLine filePath err)])
                (extractAllFiles archives rest lower fs1)
      | _ => (Val (Some (WithStack err)), fs1, evs)
      end
  | (Panic v, fs1, evs) => (Panic v, fs1, evs)
  | (Exit f, fs1, evs) => (Exit f, fs1, evs)
  end.
Proof.
  cbn [extractAllFiles]. unfold bind at 1.
  destruct (extractFile archives filePath lower fs) as [[[[err|]|v|f] fs1] evs];
    try reflexivity.
  unfold skipLine.
  destruct (Cause err) eqn:Hc.
    + rewrite bind_emit.
      destruct (extractAllFiles archives rest lower fs1) as [[r fs2] evs2].
      cbn [after]. now rewrite <- app_assoc.
    + rewrite bind_emit.
      destruct (extractAllFiles archives rest lower fs1) as [[r fs2] evs2].
      cbn [after]. now rewrite <- app_assoc.
    + unfold ret. now rewrite app_nil_r.
    + unfold ret. now rewrite app_nil_r.
    + unfold ret. now rewrite app_nil_r.
Qed.

Lemma extractAllFiles_app archives pre post lower fs :
  extractAllFiles archives (pre ++ post) lower fs =
  match extractAllFiles archives pre lower fs with
  | (Val None, fs1, evs) => after evs (extractAllFiles archives post lower fs1)
  | stopped => stopped
  end.
Proof.
  revert fs. induction pre as [|filePath pre IH]; intros fs.
  - cbn [app extractAllFiles]. unfold ret. now rewrite after_nil.
  - rewrite <- app_comm_cons, !extractAllFiles_cons.
    destruct (extractFile archives filePath lower fs) as [[[[err|]|v|f] fs1] evs];
      try reflexivity.
    + destruct (Cause err); try reflexivity;
        rewrite IH;
        destruct (extractAllFiles archives pre lower fs1) as [[[[e|]|v|f] fs2] evs2];
        try reflexivity; cbn [after]; now rewrite after_after.
    + rewrite IH.
      destruct (extractAllFiles archives pre lower fs1) as [[[[e|]|v|f] fs2] evs2];
        try reflexivity; cbn [after]; now rewrite after_after.
Qed.

Lemma extractAllFiles_error_cause archives filePaths lower fs err fs1 evs :
  extractAllFiles archives filePaths lower fs = (Val (Some err), fs1, evs) ->
  Cause err <> ErrNotFound /\ Cause err <> ErrFileRead.
Proof.
  revert fs evs. induction filePaths as [|filePath rest IH]; intros fs evs.
  - cbn. unfold ret. discriminate.
  - rewrite extractAllFiles_cons.
    destruct (extractFile archives filePath lower fs) as [[[[e|]|v|f] fs2] evs2];
      try discriminate.
    + destruct (Cause e) eqn:Hc;
        try (destruct (extractAllFiles archives rest lower fs2)
               as [[r fs3] evs3] eqn:Hrest;
             cbn [after]; intros H; injection H as -> -> _;
             now apply (IH _ _ Hrest));
        intros H; injection H as <- _ _; cbn [Cause]; rewrite Hc;
        split; discriminate.
    + destruct (extractAllFiles archives rest lower fs2)
        as [[r fs3] evs3] eqn:Hrest.
      cbn [after]. intros H. injection H as -> -> _.
      now apply (IH _ _ Hrest).
Qed.

Lemma extractAllFiles_skip archives filePath rest lower fs err fs1 evs :
  extractFile archives filePath lower fs = (Val (Some err), fs1, evs) ->
  Cause err = ErrNotFound \/ Cause err = ErrFileRead ->
  extractAllFiles archives (filePath :: rest) lower fs =
  after (evs ++ [Logged (skipLine filePath err)])
        (extractAllFiles archives rest lower fs1).
Proof.
  intros Hrun Hc. rewrite extractAllFiles_cons, Hrun.
  destruct Hc as [-> | ->]; reflexivity.
Qed.

End Pipeline.

Section Isolation.
Context {E : Env}.

Lemma extractFile_read_error archives filePath lower fs err evs :
  readFile archives filePath fs = (Val (Err err), fs, evs) ->
  extractFile archives filePath lower fs =
  (Val (Some (WithStack err)), fs, Stdout (MsgExtracting filePath) :: evs).
Proof.
  intros Hread. now rewrite extractFile_unfold, Hread.
Qed.

(** A path no archive reports is logged and skipped, and the rest of the
    batch runs as it would without it. *)
Lemma not_found_is_skipped
    (archives : list MPQ) (X key : string) (rest : list string)
    (lower : bool) (fs : FS) :
  lookupKey X = Some key ->
  misses archives key ->
  extractAllFiles archives (X :: rest) lower fs =
  after (Stdout (MsgExtracting X) :: probes 0 archives key
           ++ [Logged (MsgFileNotFound X)])
        (extractAllFiles archives rest lower fs).
Proof.
  intros Hkey Hmiss.
  assert (Hread : readFile archives X fs =
            (Val (Err (Wrap ErrNotFound key)), fs, probes 0 archives key)).
  { rewrite readFile_key, Hkey. now apply readFile_search_none. }
  rewrite (extractAllFiles_skip archives X rest lower fs _ _ _
             (extractFile_read_error archives X lower fs _ _ Hread)).
  - reflexivity.
  - now left.
Qed.

(** C2. A panic raised by the read operation of the archive that
    reports the path is caught in archiveReadFile and becomes an error
    whose cause is ErrFileRead and whose message is the panic value.  In
    a batch, the path is then logged and skipped: the run of [X :: rest]
    is the attempt on [X], the log line, and then the run of [rest] from
    the same file-system state.  The same holds for any path whose
    extraction ends in a NotFound or a ReadError, and the loop never
    returns an error of either class. *)
Theorem read_panic_is_logged_and_skipped
    (pre : list MPQ) (archive : MPQ) (post : list MPQ)
    (X key value : string) (rest : list string) (lower : bool) (fs : FS) :
  lookupKey X = Some key ->
  misses pre key ->
  FileExists archive key = true ->
  ReadFile archive key = Panicked value ->
  let archives := pre ++ archive :: post in
  let n := List.length pre in
  let readError := Wrap ErrFileRead value in
  archiveReadFile n archive key fs = (Val (Err readError), fs, [CallReadFile n key])
  /\ Cause readError = ErrFileRead
  /\ extractAllFiles archives (X :: rest) lower fs =
       after (Stdout (MsgExtracting X) :: probes 0 pre key
                ++ [CallFileExists n key; CallReadFile n key;
                    Logged (MsgFileReadError X (WithStack (WithStack readError)))])
             (extractAllFiles archives rest lower fs)
  /\ (forall Y others fs0 err fs1 evs,
        extractFile archives Y lower fs0 = (Val (Some err), fs1, evs) ->
        Cause err = ErrNotFound \/ Cause err = ErrFileRead ->
        extractAllFiles archives (Y :: others) lower fs0 =
        after (evs ++ [Logged (skipLine Y err)])
              (extractAllFiles archives others lower fs1))
  /\ (forall filePaths fs0 err fs1 evs,
        extractAllFiles archives filePaths lower fs0 = (Val (Some err), fs1, evs) ->
        Cause err <> ErrNotFound /\ Cause err <> ErrFileRead).
Proof.
  intros Hkey Hmiss Hhit Hpanic archives n readError.
  split; [|split; [|split; [|split]]].
  - rewrite archiveReadFile_run, Hpanic. reflexivity.
  - reflexivity.
  - assert (Hread : readFile archives X fs =
              (Val (Err (WithStack readError)), fs,
               probes 0 pre key ++ [CallFileExists n key; CallReadFile n key])).
    { unfold archives. rewrite readFile_key, Hkey.
      rewrite readFile_search_first by assumption.
      unfold served. now rewrite Hpanic. }
    rewrite (extractAllFiles_skip archives X rest lower fs _ _ _
               (extractFile_read_error archives X lower fs _ _ Hread))
      by now right.
    cbn [skipLine Cause readError]. f_equal.
    cbn [app]. f_equal. rewrite <- app_assoc. reflexivity.
  - intros Y others fs0 err fs1 evs. apply extractAllFiles_skip.
  - intros filePaths fs0 err fs1 evs. apply extractAllFiles_error_cause.
Qed.

(** C3. A failure of the directory creation or of the write for one
    path of a batch ends the batch there: the error comes out of the
    loop, wrapped, with the collaborator's error as its cause (neither
    sentinel), nothing is attempted for the paths after it, and main
    exits on it. *)
Theorem write_failure_aborts_batch
    (archives : list MPQ) (pre : list string) (filePath : string)
    (rest : list string) (lower : bool) (fs0 fs fs' : FS)
    (evs0 evsR attempt : list event) (data name detail : string) :
  extractAllFiles archives pre lower fs0 = (Val None, fs, evs0) ->
  readFile archives filePath fs = (Val (OK (data, name)), fs, evsR) ->
  let dst := destination lower name filePath in
  let dir := filepath_Dir dst in
  (os_MkdirAll dir fs = (Some detail, fs') /\ attempt = [CallMkdirAll dir])
  \/ (exists fs1,
        os_MkdirAll dir fs = (None, fs1) /\
        ioutil_WriteFile dst data fs1 = (Some detail, fs') /\
        attempt = [CallMkdirAll dir; CallWriteFile dst data]) ->
  let failure := WithStack (WithStack (ErrForeign detail)) in
  let evs := evs0 ++ Stdout (MsgExtracting filePath) :: evsR
                  ++ Stdout (MsgCreating dst) :: attempt in
  extractAllFiles archives (pre ++ filePath :: rest) lower fs0 =
    (Val (Some failure), fs', evs)
  /\ Cause failure = ErrForeign detail
  /\ Cause failure <> ErrNotFound
  /\ Cause failure <> ErrFileRead
  /\ (forall paths,
        map denormalize paths = pre ++ filePath :: rest ->
        extractOrDie archives paths lower fs0 = (Exit (FatalError failure), fs', evs)).
Proof.
  intros Hpre Hread dst dir Hfail failure evs.
  assert (Hout : writeOut dst data fs =
            (Val (Some (WithStack (ErrForeign detail))), fs', attempt)).
  { unfold writeOut. fold dir.
    destruct Hfail as [[Hmk ->] | [fs1 [Hmk [Hwr ->]]]].
    - now rewrite Hmk.
    - now rewrite Hmk, Hwr. }
  assert (Hrun : extractAllFiles archives (pre ++ filePath :: rest) lower fs0 =
            (Val (Some failure), fs', evs)).
  { rewrite extractAllFiles_app, Hpre, extractAllFiles_cons.
    rewrite extractFile_unfold, Hread. cbv zeta. fold dst. rewrite Hout.
    cbn [after Cause]. unfold failure, evs. f_equal.
    cbn [app]. f_equal. f_equal. rewrite <- app_assoc. reflexivity. }
  split; [exact Hrun|]. split; [reflexivity|].
  split; [discriminate|]. split; [discriminate|].
  intros paths Hpaths. unfold extractOrDie, bind.
  rewrite Hpaths, Hrun. unfold log_Fatalf. now rewrite app_nil_r.
Qed.

(** C9. For every extracted resource, the destination announced,
    created and written with the lowercase flag set is the lowercase form
    of the destination used with the flag unset, and the latter is built
    from the resource path as given, not from its lower-cased lookup key. *)
Theorem lowercase_destination
    (archives : list MPQ) (filePath : string) (fs : FS)
    (data name : string) (evs : list event) :
  readFile archives filePath fs = (Val (OK (data, name)), fs, evs) ->
  let unset :=
    normalize (filepath_Join ["_dump_"; pathutil_FileName name; filePath]) in
  extractFile archives filePath false fs =
    after (Stdout (MsgExtracting filePath) :: evs ++ [Stdout (MsgCreating unset)])
          (writeOut unset data fs)
  /\ extractFile archives filePath true fs =
    after (Stdout (MsgExtracting filePath) :: evs
             ++ [Stdout (MsgCreating (strings_ToLower unset))])
          (writeOut (strings_ToLower unset) data fs)
  /\ (forall lower path written,
        In (CallWriteFile path written)
           (snd (extractFile archives filePath lower fs)) ->
        path = (if lower then strings_ToLower unset else unset)
        /\ written = data).
Proof.
  intros Hread unset.
  assert (Hrun : forall lower,
    extractFile archives filePath lower fs =
    after (Stdout (MsgExtracting filePath) :: evs
             ++ [Stdout (MsgCreating (if lower then strings_ToLower unset else unset))])
          (writeOut (if lower then strings_ToLower unset else unset) data fs)).
  { intros lower. rewrite extractFile_unfold, Hread. cbv zeta.
    rewrite after_after. unfold destination. fold unset.
    destruct lower; reflexivity. }
  split; [apply (Hrun false)|]. split; [apply (Hrun true)|].
  intros lower path written. rewrite Hrun.
  set (dst := if lower then strings_ToLower unset else unset).
  assert (Hevs : forall e, In e evs -> e <> CallWriteFile path written).
  { intros e He.
    destruct (readFile_events archives filePath fs e) as [key [_ [j [-> | ->]]]];
      [now rewrite Hread | discriminate | discriminate]. }
  unfold writeOut.
  destruct (os_MkdirAll (filepath_Dir dst) fs) as [[d|] fs1];
    [|destruct (ioutil_WriteFile dst data fs1) as [[d|] fs2]];
    cbn [after snd].
  all: intros H; apply in_app_or in H; destruct H as [[H|H]|H];
    [ discriminate H
    | apply in_app_or in H; destruct H as [H|[H|[]]];
      [ now destruct (Hevs _ H) | discriminate H ]
    | repeat (destruct H as [H|H]; try discriminate H);
      try (now destruct H); injection H as <- <-; now split ].
Qed.

End Isolation.

(** ** ListResolver *)

Section ListResolver.
Context {E : Env}.

Lemma lookupKey_denormalize filePath key :
  lookupKey filePath = Some key -> key = denormalize (strings_ToLower filePath).
Proof.
  unfold lookupKey, denormalize. rewrite HasPrefix_byte.
  destruct (strings_ReplaceAll (strings_ToLower filePath) slash backslash)
    as [|c lowered]; cbn [String.get]; [discriminate|].
  intros H. injection H as <-. reflexivity.
Qed.

Lemma anyFileExists_run i archives key fs :
  exists evs,
    anyFileExists i archives key fs =
      (Val (existsb (fun archive => FileExists archive key) archives), fs, evs)
    /\ forall k, In k (keysPassed evs) -> k = key.
Proof.
  revert i. induction archives as [|archive rest IH]; intros i.
  - exists []. split; [reflexivity | intros k []].
  - cbn [anyFileExists existsb]. unfold call_FileExists, bind at 1.
    rewrite bind_emit. unfold ret at 1. cbn [after].
    destruct (FileExists archive key).
    + exists [CallFileExists i key]. split; [reflexivity|].
      intros k [H|[]]. now symmetry.
    + destruct (IH (S i)) as [evs [Hrun Hkeys]]. rewrite Hrun.
      exists (CallFileExists i key :: evs). split; [reflexivity|].
      intros k [H|H]; [now symmetry | now apply Hkeys].
Qed.

Lemma scanListfile_run archives lines filePaths fs :
  exists evs,
    scanListfile archives lines filePaths fs =
      (Val (filePaths ++ listed archives lines), fs, evs)
    /\ forall k, In k (keysPassed evs) ->
         exists line, In line lines /\ k = denormalize line.
Proof.
  revert filePaths. induction lines as [|line rest IH]; intros filePaths.
  - exists []. cbn. unfold ret. rewrite app_nil_r.
    split; [reflexivity | intros k []].
  - cbn [scanListfile]. unfold bind.
    destruct (anyFileExists_run 0 archives (denormalize line) fs)
      as [evs1 [Hany Hkeys1]].
    rewrite Hany.
    destruct (IH (if present archives line
                  then filePaths ++ [denormalize line] else filePaths))
      as [evs2 [Hrest Hkeys2]].
    unfold present in Hrest at 1. rewrite Hrest.
    exists (evs1 ++ evs2). split.
    + f_equal. f_equal. f_equal. unfold listed. cbn [flat_map].
      unfold contribution at 2.
      destruct (present archives line); [|reflexivity].
      now rewrite <- app_assoc.
    + intros k. rewrite keysPassed_app, in_app_iff. intros [H|H].
      * exists line. split; [now left | now apply Hkeys1].
      * destruct (Hkeys2 k H) as [l [Hl ->]]. exists l. split; [now right | easy].
Qed.

Lemma getFilePathsFromBundledListfile_run archives data fs :
  exists evs,
    getFilePathsFromBundledListfile archives data fs =
      (Val (OK (listed archives (bufio_Scan data))), fs, evs)
    /\ forall k, In k (keysPassed evs) ->
         exists line, In line (bufio_Scan data) /\ k = denormalize line.
Proof.
  unfold getFilePathsFromBundledListfile, bind.
  destruct (scanListfile_run archives (bufio_Scan data) [] fs)
    as [evs [Hrun Hkeys]].
  rewrite Hrun. exists evs. unfold ret. rewrite app_nil_r.
  split; [reflexivity | exact Hkeys].
Qed.

Lemma getFilePathsFromListfile_run archives listfilePath fs :
  match ioutil_ReadFile listfilePath fs with
  | inl detail =>
      getFilePathsFromListfile archives listfilePath fs =
      (Val (Err (WithStack (ErrForeign detail))), fs, [CallIoReadFile listfilePath])
  | inr buf =>
      exists evs,
        getFilePathsFromListfile archives listfilePath fs =
          (Val (OK (listed archives (bufio_Scan buf))), fs,
           CallIoReadFile listfilePath :: evs)
        /\ forall k, In k (keysPassed evs) ->
             exists line, In line (bufio_Scan buf) /\ k = denormalize line
  end.
Proof.
  destruct (ioutil_ReadFile listfilePath fs) as [detail|buf] eqn:Hio;
    unfold getFilePathsFromListfile, bind, call_IoReadFile; rewrite Hio.
  - reflexivity.
  - destruct (scanListfile_run archives (bufio_Scan buf) [] fs)
      as [evs [Hrun Hkeys]].
    rewrite Hrun. exists evs. unfold ret. rewrite app_nil_r.
    split; [reflexivity | exact Hkeys].
Qed.

Lemma present_iff archives line :
  present archives line = true <->
  exists archive, In archive archives /\ FileExists archive (denormalize line) = true.
Proof. unfold present. apply existsb_exists. Qed.

Lemma listed_iff archives lines entry :
  In entry (listed archives lines) <->
  exists line, In line lines /\ entry = denormalize line
               /\ present archives line = true.
Proof.
  unfold listed. rewrite in_flat_map. split.
  - intros [line [Hin Hc]]. exists line. unfold contribution in Hc.
    destruct (present archives line); [|destruct Hc].
    destruct Hc as [<-|[]]. now repeat split.
  - intros [line [Hin [-> Hp]]]. exists line. split; [exact Hin|].
    unfold contribution. rewrite Hp. now left.
Qed.

(** On the lines the scanner yields, both listfile filters return the
    native form of exactly those that some archive reports, in order: a
    yielded line no archive reports contributes no entry, a yielded line
    some archive reports contributes its native form. *)
Theorem listfile_filter_keeps_reported_lines
    (archives : list MPQ) (data listfilePath buf : string) (fs : FS) :
  ioutil_ReadFile listfilePath fs = inr buf ->
  (exists evs,
     getFilePathsFromBundledListfile archives data fs =
     (Val (OK (listed archives (bufio_Scan data))), fs, evs))
  /\ (exists evs,
        getFilePathsFromListfile archives listfilePath fs =
        (Val (OK (listed archives (bufio_Scan buf))), fs, evs))
  /\ (forall line,
        (misses archives (denormalize line) -> contribution archives line = [])
        /\ (forall archive, In archive archives ->
              FileExists archive (denormalize line) = true ->
              contribution archives line = [denormalize line]))
  /\ (forall lines line, In line lines ->
        (In (denormalize line) (listed archives lines) <->
         exists archive,
           In archive archives /\ FileExists archive (denormalize line) = true)).
Proof.
  intros Hbuf. split; [|split; [|split]].
  - destruct (getFilePathsFromBundledListfile_run archives data fs)
      as [evs [Hrun _]]. now exists evs.
  - pose proof (getFilePathsFromListfile_run archives listfilePath fs) as H.
    rewrite Hbuf in H. destruct H as [evs [Hrun _]].
    eexists. exact Hrun.
  - intros line. unfold contribution. split.
    + intros Hmiss. destruct (present archives line) eqn:Hp; [|reflexivity].
      apply present_iff in Hp as [archive [Hin Hhit]].
      rewrite (Hmiss archive Hin) in Hhit. discriminate.
    + intros archive Hin Hhit.
      assert (Hp : present archives line = true)
        by (apply present_iff; now exists archive).
      now rewrite Hp.
  - intros lines line Hin. rewrite listed_iff, <- present_iff. split.
    + intros [l [_ [Heq Hp]]]. unfold present in *. now rewrite Heq.
    + intros Hp. now exists line.
Qed.

(** C6, as the code has it.  Every key read resolution hands to
    FileExists and ReadFile is the native form of the lower-cased path.
    Every key a listfile filter hands to FileExists has no forward
    separator and is, up to letter case, the native form of a scanned
    line; which case it has is left open.  A native form has no forward
    separator and has lost one leading separator. *)
Theorem lookup_keys_are_native_forms
    (archives : list MPQ) (filePath data listfilePath : string) (fs : FS) :
  (forall key,
     In key (keysPassed (snd (readFile archives filePath fs))) ->
     key = denormalize (strings_ToLower filePath))
  /\ (forall key,
        In key (keysPassed (snd (getFilePathsFromBundledListfile archives data fs))) ->
        hasByte slash key = false
        /\ exists line,
             In line (bufio_Scan data)
             /\ strings_ToLower key = strings_ToLower (denormalize line))
  /\ (forall key,
        In key (keysPassed (snd (getFilePathsFromListfile archives listfilePath fs))) ->
        hasByte slash key = false
        /\ exists buf line,
             ioutil_ReadFile listfilePath fs = inr buf
             /\ In line (bufio_Scan buf)
             /\ strings_ToLower key = strings_ToLower (denormalize line))
  /\ (forall s,
        hasByte slash (denormalize s) = false
        /\ denormalize s =
           let native := strings_ReplaceAll s slash backslash in
           if strings_HasPrefix native "\" then slice_from 1 native else native).
Proof.
  split; [|split; [|split]].
  - intros key Hin.
    assert (Hev : exists e, In e (snd (readFile archives filePath fs))
                            /\ In key (keysPassed [e])).
    { revert Hin. generalize (snd (readFile archives filePath fs)).
      induction l as [|e l IH]; [intros []|].
      change (e :: l) with ([e] ++ l). rewrite keysPassed_app, in_app_iff.
      intros [H|H].
      - exists e. split; [now left | exact H].
      - destruct (IH H) as [e' [He' Hk]]. exists e'. split; [now right | exact Hk]. }
    destruct Hev as [e [He Hk]].
    destruct (readFile_events archives filePath fs e He)
      as [k [Hkey [j [-> | ->]]]];
      destruct Hk as [<-|[]]; now apply lookupKey_denormalize.
  - intros key.
    destruct (getFilePathsFromBundledListfile_run archives data fs)
      as [evs [Hrun Hkeys]].
    rewrite Hrun. intros Hin. destruct (Hkeys key Hin) as [line [Hl ->]].
    split; [apply denormalize_no_slash|]. now exists line.
  - intros key.
    pose proof (getFilePathsFromListfile_run archives listfilePath fs) as H.
    destruct (ioutil_ReadFile listfilePath fs) as [detail|buf].
    + rewrite H. intros [].
    + destruct H as [evs [Hrun Hkeys]]. rewrite Hrun. cbn [snd keysPassed].
      intros Hin. destruct (Hkeys key Hin) as [line [Hl ->]].
      split; [apply denormalize_no_slash|]. now exists buf, line.
  - intros s. split; [apply denormalize_no_slash | reflexivity].
Qed.

End ListResolver.

(** ** Strategy selection *)

Lemma strings_Split_length s sep : 0 < List.length (strings_Split s sep).
Proof.
  induction s as [|c s IH]; cbn; [lia|].
  destruct (Ascii.eqb c sep); cbn; [lia|].
  destruct (strings_Split s sep); cbn; lia.
Qed.

Lemma length_nonempty s : s <> "" -> Nat.ltb 0 (String.length s) = true.
Proof. destruct s; [congruence | reflexivity]. Qed.

Section Selection.
Context {E : Env}.

Lemma explicit_list_selected (raw : string) {A} (other : M A) (k : list string -> M A) :
  raw <> "" ->
  (let filePaths :=
     if Nat.ltb 0 (String.length raw) then strings_Split raw "," else [] in
   if Nat.eqb (List.length filePaths) 0 then other else k filePaths) =
  k (strings_Split raw ",").
Proof.
  intros Hraw. cbv zeta. rewrite (length_nonempty raw Hraw).
  pose proof (strings_Split_length raw ",") as Hlen.
  destruct (List.length (strings_Split raw ",")); [lia | reflexivity].
Qed.

(** C8. With a non-empty explicit list, both mains of src/main.go take
    the comma-separated fields of the list as the paths to extract,
    whatever the listfile path, the embedded flag and the all flag are:
    selecting them reads no file, asks no archive and produces no event,
    and the paths extracted are their native forms. *)
Theorem explicit_list_is_used_exclusively
    (fl1 : Listfile.Flags) (fl2 : Bundled.Flags) (archives : list MPQ) (fs : FS) :
  Listfile.rawFilePaths fl1 <> "" ->
  Bundled.rawFilePaths fl2 <> "" ->
  Listfile.filePathsToExtract fl1 archives fs =
    (Val (strings_Split (Listfile.rawFilePaths fl1) ","), fs, [])
  /\ Bundled.filePathsToExtract fl2 archives fs =
    (Val (strings_Split (Bundled.rawFilePaths fl2) ","), fs, [])
  /\ Listfile.main fl1 fs =
     (opened <- openArchives (getMpqPaths (Listfile.args fl1) (Listfile.mpqDir fl1)) [] ;;
      e <- extractAllFiles opened
             (map denormalize (strings_Split (Listfile.rawFilePaths fl1) ",")) false ;;
      match e with
      | Some err => log_Fatalf (FatalError err)
      | None => ret tt
      end) fs
  /\ Bundled.main fl2 fs =
     (opened <- openArchives (getMpqPaths (Bundled.args fl2) (Bundled.mpqDir fl2)) [] ;;
      e <- extractAllFiles opened
             (map denormalize (strings_Split (Bundled.rawFilePaths fl2) ","))
             (Bundled.lower fl2) ;;
      match e with
      | Some err => log_Fatalf (FatalError err)
      | None => ret tt
      end) fs.
Proof.
  intros H1 H2.
  assert (S1 : forall opened fs0,
            Listfile.filePathsToExtract fl1 opened fs0 =
            (Val (strings_Split (Listfile.rawFilePaths fl1) ","), fs0, [])).
  { intros opened fs0. unfold Listfile.filePathsToExtract.
    now rewrite (explicit_list_selected _ _ ret H1). }
  assert (S2 : forall opened fs0,
            Bundled.filePathsToExtract fl2 opened fs0 =
            (Val (strings_Split (Bundled.rawFilePaths fl2) ","), fs0, [])).
  { intros opened fs0. unfold Bundled.filePathsToExtract.
    now rewrite (explicit_list_selected _ _ ret H2). }
  split; [apply S1|]. split; [apply S2|]. split.
  - unfold Listfile.main, bind at 1 3.
    destruct (openArchives _ [] fs) as [[[opened|v|f] fs0] evs0]; try reflexivity.
    now rewrite (bind_pure _ _ _ _ (S1 opened fs0)).
  - unfold Bundled.main, bind at 1 3.
    destruct (openArchives _ [] fs) as [[[opened|v|f] fs0] evs0]; try reflexivity.
    now rewrite (bind_pure _ _ _ _ (S2 opened fs0)).
Qed.

End Selection.

(** * Further properties *)

(** ** PathCodec *)

Lemma ReplaceAll_inverse s a b :
  a <> b -> hasByte b s = false ->
  strings_ReplaceAll (strings_ReplaceAll s a b) b a = s.
Proof.
  intros Hab. induction s as [|c s IH]; simpl; intros H; [reflexivity|].
  apply orb_false_iff in H as [Hc Hs]. rewrite (IH Hs). f_equal.
  destruct (Ascii.eqb_spec c a) as [->|Hca].
  - now rewrite Ascii.eqb_refl.
  - now rewrite Hc.
Qed.

Lemma String_not_tail c s : String c s <> s.
Proof.
  intros H. apply (f_equal String.length) in H. simpl in H. lia.
Qed.

Lemma denormalize_native d :
  hasByte slash d = false ->
  denormalize d = if strings_HasPrefix d "\" then slice_from 1 d else d.
Proof.
  intros Hd. unfold denormalize.
  now rewrite (ReplaceAll_fresh d slash backslash Hd).
Qed.

(** X1. A native key (no forward separator, no leading backslash)
    survives the trip through canonical form: denormalize undoes
    normalize on it. *)
Theorem denormalize_normalize_roundtrip (key : string) :
  hasByte slash key = false ->
  strings_HasPrefix key "\" = false ->
  denormalize (normalize key) = key.
Proof.
  intros Hslash Hlead. unfold denormalize, normalize.
  rewrite (ReplaceAll_inverse key backslash slash) by (discriminate || exact Hslash).
  now rewrite Hlead.
Qed.

Lemma denormalize_stable s :
  strings_HasPrefix (denormalize s) "\" = false ->
  denormalize (denormalize s) = denormalize s.
Proof.
  intros H.
  rewrite (denormalize_native (denormalize s) (denormalize_no_slash s)).
  now rewrite H.
Qed.

(** X2. A second application of denormalize removes one more leading
    backslash when the native form still starts with one, and changes
    nothing otherwise: so denormalize is idempotent on a path exactly
    when its native form does not start with a backslash, and on a path
    with two leading separators the second application removes the
    second one. *)
Theorem denormalize_idempotent_iff (s : string) :
  denormalize (denormalize s) =
    (if strings_HasPrefix (denormalize s) "\"
     then slice_from 1 (denormalize s) else denormalize s)
  /\ (denormalize (denormalize s) = denormalize s <->
      strings_HasPrefix (denormalize s) "\" = false)
  /\ denormalize (String slash (String slash s)) =
       String backslash (strings_ReplaceAll s slash backslash)
  /\ denormalize (denormalize (String slash (String slash s))) =
       strings_ReplaceAll s slash backslash.
Proof.
  assert (Htwice : forall t,
            denormalize (denormalize t) =
            (if strings_HasPrefix (denormalize t) "\"
             then slice_from 1 (denormalize t) else denormalize t))
    by (intros t; apply denormalize_native, denormalize_no_slash).
  assert (Hdouble : denormalize (String slash (String slash s)) =
                    String backslash (strings_ReplaceAll s slash backslash))
    by reflexivity.
  split; [apply Htwice|]. split; [|split; [exact Hdouble|]].
  - rewrite Htwice, HasPrefix_byte.
    destruct (denormalize s) as [|c d]; [tauto|].
    destruct (Ascii.eqb c "\"%char); cbn [slice_from]; split; intros H;
      try reflexivity; try discriminate H.
    now destruct (String_not_tail c d).
  - rewrite Htwice, Hdouble, HasPrefix_byte.
    change (Ascii.eqb backslash "\"%char) with (Ascii.eqb backslash backslash).
    now rewrite Ascii.eqb_refl.
Qed.

(** X3. normalize leaves no backslash and is idempotent, so with the
    lowercase flag unset the destination of an extracted file is
    separated by forward slashes only. *)
Theorem destination_forward_separated {E : Env} (archiveName filePath s : string) :
  hasByte backslash (normalize s) = false
  /\ normalize (normalize s) = normalize s
  /\ hasByte backslash (destination false archiveName filePath) = false.
Proof.
  assert (H : forall t, hasByte backslash (normalize t) = false)
    by (intros t; apply ReplaceAll_removes; discriminate).
  split; [apply H|]. split; [|apply H].
  unfold normalize at 1. apply ReplaceAll_fresh, H.
Qed.

(** ** ArchiveChain *)

Section ChainExtras.
Context {E : Env}.

Lemma first_reporting archives key :
  misses archives key
  \/ exists pre archive post,
       archives = pre ++ archive :: post /\ misses pre key
       /\ FileExists archive key = true.
Proof.
  induction archives as [|a rest IH].
  - left. intros ? [].
  - destruct (FileExists a key) eqn:Ha.
    + right. exists [], a, rest. repeat split; [intros ? [] | exact Ha].
    + destruct IH as [Hmiss | [pre [b [post [-> [Hmiss Hb]]]]]].
      * left. intros b [<-|Hb]; [exact Ha | now apply Hmiss].
      * right. exists (a :: pre), b, post. repeat split; [|exact Hb].
        intros c [<-|Hc]; [exact Ha | now apply Hmiss].
Qed.

Lemma served_not_missing archive key err :
  served archive key = Err err -> Cause err <> ErrNotFound.
Proof.
  unfold served. destruct (ReadFile archive key); intros H;
    try discriminate H; injection H as <-; discriminate.
Qed.

(** X4. readFile answers NotFound exactly when no archive reports the
    lookup key: it then has asked every archive once, in order, and read
    none; as soon as one archive reports the key the answer is that
    archive's, never NotFound. *)
Theorem readFile_not_found_iff
    (archives : list MPQ) (filePath key : string) (fs : FS) :
  lookupKey filePath = Some key ->
  (misses archives key ->
     readFile archives filePath fs =
     (Val (Err (Wrap ErrNotFound key)), fs, probes 0 archives key))
  /\ ((exists err,
         fst (fst (readFile archives filePath fs)) = Val (Err err)
         /\ Cause err = ErrNotFound)
      <-> misses archives key).
Proof.
  intros Hkey.
  assert (Hnone : misses archives key ->
            readFile archives filePath fs =
            (Val (Err (Wrap ErrNotFound key)), fs, probes 0 archives key)).
  { intros Hmiss. rewrite readFile_key, Hkey. now apply readFile_search_none. }
  split; [exact Hnone|]. split.
  - intros [err [Hrun Hcause]].
    destruct (first_reporting archives key)
      as [Hmiss | [pre [a [post [-> [Hmiss Ha]]]]]]; [exact Hmiss|].
    rewrite readFile_key, Hkey in Hrun.
    rewrite readFile_search_first in Hrun by assumption.
    cbn [fst] in Hrun. injection Hrun as Hserved.
    now destruct (served_not_missing a key err Hserved).
  - intros Hmiss. rewrite (Hnone Hmiss). cbn [fst]. now eexists.
Qed.

Lemma anyFileExists_cons i archive rest key fs :
  anyFileExists i (archive :: rest) key fs =
  after [CallFileExists i key]
    (if FileExists archive key then (Val true, fs, [])
     else anyFileExists (S i) rest key fs).
Proof.
  cbn [anyFileExists]. unfold call_FileExists.
  unfold bind at 1. rewrite bind_emit. unfold ret at 1, after at 1.
  destruct (FileExists archive key); [reflexivity|].
  destruct (anyFileExists (S i) rest key fs) as [[r fs'] evs]. reflexivity.
Qed.

Lemma anyFileExists_miss i pre tail key fs :
  misses pre key ->
  anyFileExists i (pre ++ tail) key fs =
  after (probes i pre key) (anyFileExists (i + List.length pre) tail key fs).
Proof.
  revert i. induction pre as [|a pre IH]; intros i Hmiss.
  - cbn [app List.length]. rewrite Nat.add_0_r. unfold probes. cbn.
    now rewrite after_nil.
  - rewrite <- app_comm_cons, anyFileExists_cons.
    rewrite (Hmiss a (or_introl eq_refl)).
    rewrite IH by (intros b Hb; apply Hmiss; right; exact Hb).
    rewrite after_after. cbn [List.length]. rewrite Nat.add_succ_comm.
    reflexivity.
Qed.

(** X13. The existence check of the listfile filters stops at the first
    archive that reports the path: the archives before it are asked
    once each, the archives after it are not asked; when none reports
    the path, every archive has been asked once. *)
Theorem anyFileExists_short_circuits
    (i : nat) (pre : list MPQ) (archive : MPQ) (post : list MPQ)
    (key : string) (fs : FS) :
  misses pre key ->
  (FileExists archive key = true ->
     anyFileExists i (pre ++ archive :: post) key fs =
     (Val true, fs, probes i pre key ++ [CallFileExists (i + List.length pre) key]))
  /\ anyFileExists i pre key fs = (Val false, fs, probes i pre key).
Proof.
  intros Hmiss. split.
  - intros Hhit. rewrite anyFileExists_miss by exact Hmiss.
    now rewrite anyFileExists_cons, Hhit.
  - rewrite <- (app_nil_r pre) at 1.
    rewrite anyFileExists_miss by exact Hmiss.
    cbn. unfold ret. now rewrite app_nil_r.
Qed.

Lemma anyFileExists_probes i archives key fs :
  exists evs,
    anyFileExists i archives key fs =
      (Val (existsb (fun archive => FileExists archive key) archives), fs, evs)
    /\ Forall isProbe evs.
Proof.
  revert i. induction archives as [|a rest IH]; intros i.
  - exists []. split; [reflexivity | constructor].
  - rewrite anyFileExists_cons. cbn [existsb].
    destruct (FileExists a key).
    + exists [CallFileExists i key]. split; [reflexivity|].
      repeat constructor. now exists i, key.
    + destruct (IH (S i)) as [evs [Hrun Hall]]. rewrite Hrun.
      exists (CallFileExists i key :: evs). split; [reflexivity|].
      constructor; [now exists i, key | exact Hall].
Qed.

Lemma scanListfile_probes archives lines filePaths fs :
  exists evs,
    scanListfile archives lines filePaths fs =
      (Val (filePaths ++ listed archives lines), fs, evs)
    /\ Forall isProbe evs.
Proof.
  revert filePaths. induction lines as [|line rest IH]; intros filePaths.
  - exists []. cbn. unfold ret. rewrite app_nil_r.
    split; [reflexivity | constructor].
  - cbn [scanListfile]. unfold bind.
    destruct (anyFileExists_probes 0 archives (denormalize line) fs)
      as [evs1 [Hany Hall1]].
    rewrite Hany.
    destruct (IH (if present archives line
                  then filePaths ++ [denormalize line] else filePaths))
      as [evs2 [Hrest Hall2]].
    unfold present in Hrest at 1. rewrite Hrest.
    exists (evs1 ++ evs2). split.
    + f_equal. f_equal. f_equal. unfold listed. cbn [flat_map].
      unfold contribution at 2.
      destruct (present archives line); [|reflexivity].
      now rewrite <- app_assoc.
    + apply Forall_app. now split.
Qed.

(** X14. The listfile filters only ask whether paths exist: apart from
    the one read of the external listfile, every call they make is an
    existence check; they read no archive contents, write nothing, and
    leave the file system as it was. *)
Theorem listfile_filters_only_probe
    (archives : list MPQ) (data listfilePath : string) (fs : FS) :
  Forall isProbe (snd (getFilePathsFromBundledListfile archives data fs))
  /\ snd (fst (getFilePathsFromBundledListfile archives data fs)) = fs
  /\ (exists evs,
        snd (getFilePathsFromListfile archives listfilePath fs) =
          CallIoReadFile listfilePath :: evs
        /\ Forall isProbe evs)
  /\ snd (fst (getFilePathsFromListfile archives listfilePath fs)) = fs.
Proof.
  assert (Hb : exists evs,
            getFilePathsFromBundledListfile archives data fs =
            (Val (OK (listed archives (bufio_Scan data))), fs, evs)
            /\ Forall isProbe evs).
  { unfold getFilePathsFromBundledListfile, bind.
    destruct (scanListfile_probes archives (bufio_Scan data) [] fs)
      as [evs [Hrun Hall]].
    rewrite Hrun. exists evs. unfold ret. rewrite app_nil_r. now split. }
  assert (Hl : exists r evs,
            getFilePathsFromListfile archives listfilePath fs =
            (r, fs, CallIoReadFile listfilePath :: evs)
            /\ Forall isProbe evs).
  { destruct (ioutil_ReadFile listfilePath fs) as [detail|buf] eqn:Hio;
      unfold getFilePathsFromListfile, bind, call_IoReadFile; rewrite Hio.
    - eexists _, []. split; [reflexivity | constructor].
    - destruct (scanListfile_probes archives (bufio_Scan buf) [] fs)
        as [evs [Hrun Hall]].
      rewrite Hrun. eexists _, evs. unfold ret. rewrite app_nil_r.
      split; [reflexivity | exact Hall]. }
  destruct Hb as [evs [Hrun Hall]]. destruct Hl as [r [evs' [Hrun' Hall']]].
  rewrite Hrun, Hrun'. cbn [fst snd].
  repeat split; try assumption. now exists evs'.
Qed.

(** The native forms a filter keeps are fixed by one more denormalize
    when no line starts with two separators. *)
Lemma listed_denormalize_stable
    (archives : list MPQ) (lines : list string) :
  (forall line, In line lines ->
     strings_HasPrefix (denormalize line) "\" = false) ->
  map denormalize (listed archives lines) = listed archives lines.
Proof.
  intros Hlines. unfold listed.
  induction lines as [|line rest IH]; [reflexivity|].
  cbn [flat_map]. rewrite map_app.
  rewrite IH by (intros l Hl; apply Hlines; now right).
  f_equal. unfold contribution.
  destruct (present archives line); [|reflexivity].
  cbn [map]. f_equal.
  apply denormalize_stable, Hlines. now left.
Qed.

End ChainExtras.

(** ** ExtractionPipeline *)

Lemma attempted_app evs1 evs2 :
  attempted (evs1 ++ evs2) = attempted evs1 ++ attempted evs2.
Proof.
  induction evs1 as [|e evs1 IH]; [reflexivity|].
  destruct e as [m|m| | | | | | |]; try destruct m; simpl; now rewrite IH.
Qed.

Lemma written_app evs1 evs2 :
  written (evs1 ++ evs2) = written evs1 ++ written evs2.
Proof.
  induction evs1 as [|e evs1 IH]; [reflexivity|].
  destruct e; simpl; now rewrite IH.
Qed.

Lemma skipped_app evs1 evs2 :
  skipped (evs1 ++ evs2) = skipped evs1 ++ skipped evs2.
Proof.
  induction evs1 as [|e evs1 IH]; [reflexivity|].
  destruct e as [m|m| | | | | | |]; try destruct m; simpl; now rewrite IH.
Qed.

Lemma loggedNotFound_app evs1 evs2 :
  loggedNotFound (evs1 ++ evs2) = loggedNotFound evs1 ++ loggedNotFound evs2.
Proof.
  induction evs1 as [|e evs1 IH]; [reflexivity|].
  destruct e as [m|m| | | | | | |]; try destruct m; simpl; now rewrite IH.
Qed.

Lemma probes_quiet i archives key :
  written (probes i archives key) = []
  /\ skipped (probes i archives key) = []
  /\ loggedNotFound (probes i archives key) = [].
Proof.
  unfold probes. revert i.
  induction (List.length archives) as [|n IHn]; intros i; [now repeat split|].
  cbn. apply IHn.
Qed.

Lemma lookups_quiet evs :
  (forall e, In e evs -> exists key, isLookup key e) ->
  attempted evs = [] /\ written evs = [] /\ skipped evs = [].
Proof.
  induction evs as [|e evs IH]; intros H; [now repeat split|].
  destruct IH as [Ha [Hw Hs]]; [intros e' He'; apply H; now right|].
  destruct (H e (or_introl eq_refl)) as [key [j [-> | ->]]]; simpl;
    now repeat split.
Qed.

Section PipelineExtras.
Context {E : Env}.

Lemma snd_after {A} evs (run : res A * FS * list event) :
  snd (after evs run) = evs ++ snd run.
Proof. destruct run as [[r fs] evs']. reflexivity. Qed.

Lemma fst_after {A} evs (run : res A * FS * list event) :
  fst (after evs run) = fst run.
Proof. destruct run as [[r fs] evs']. reflexivity. Qed.

Lemma readFile_quiet archives filePath fs :
  attempted (snd (readFile archives filePath fs)) = []
  /\ written (snd (readFile archives filePath fs)) = []
  /\ skipped (snd (readFile archives filePath fs)) = [].
Proof.
  apply lookups_quiet. intros e He.
  destruct (readFile_events archives filePath fs e He) as [key [_ Hk]].
  now exists key.
Qed.

Lemma readFile_same_state archives filePath fs :
  snd (fst (readFile archives filePath fs)) = fs.
Proof.
  rewrite readFile_key. destruct (lookupKey filePath) as [key|]; [|reflexivity].
  apply readFile_search_events.
Qed.

Lemma readFile_ok_inv archives filePath fs data name :
  fst (fst (readFile archives filePath fs)) = Val (OK (data, name)) ->
  exists key pre archive post,
    lookupKey filePath = Some key
    /\ archives = pre ++ archive :: post
    /\ misses pre key
    /\ FileExists archive key = true
    /\ ReadFile archive key = Done data
    /\ name = FileName archive.
Proof.
  rewrite readFile_key.
  destruct (lookupKey filePath) as [key|]; [|discriminate].
  destruct (first_reporting archives key)
    as [Hmiss | [pre [a [post [-> [Hmiss Ha]]]]]].
  - rewrite readFile_search_none by exact Hmiss. discriminate.
  - rewrite readFile_search_first by assumption. cbn [fst].
    unfold served. destruct (ReadFile a key) as [d| |] eqn:Hd; try discriminate.
    intros H. injection H as H1 H2. subst data name.
    exists key, pre, a, post. now repeat split.
Qed.

(** What one call of extractFile leaves in the trace, by outcome. *)
Lemma extractFile_summary archives filePath lower fs :
  attempted (snd (extractFile archives filePath lower fs)) = [filePath]
  /\ skipped (snd (extractFile archives filePath lower fs)) = []
  /\ (forall path data,
        In (path, data) (written (snd (extractFile archives filePath lower fs))) ->
        exists name,
          fst (fst (readFile archives filePath fs)) = Val (OK (data, name))
          /\ path = destination lower name filePath)
  /\ (fst (fst (extractFile archives filePath lower fs)) = Val None ->
        List.length (written (snd (extractFile archives filePath lower fs))) = 1)
  /\ (forall err,
        fst (fst (extractFile archives filePath lower fs)) = Val (Some err) ->
        Cause err = ErrNotFound \/ Cause err = ErrFileRead ->
        written (snd (extractFile archives filePath lower fs)) = []
        /\ snd (fst (extractFile archives filePath lower fs)) = fs).
Proof.
  rewrite extractFile_unfold.
  destruct (readFile_quiet archives filePath fs) as [Qa [Qw Qs]].
  pose proof (readFile_same_state archives filePath fs) as Hfs.
  destruct (readFile archives filePath fs)
    as [[[[[data name]|err]|v|f] fs1] evs]; cbn [fst snd] in *;
    try (cbv zeta; unfold writeOut;
         destruct (os_MkdirAll _ fs1) as [[d|] fs2];
         [|destruct (ioutil_WriteFile _ data fs2) as [[d|] fs3]]);
    cbn [after fst snd app attempted written skipped];
    rewrite ?attempted_app, ?written_app, ?skipped_app, ?Qa, ?Qw, ?Qs;
    cbn [attempted written skipped app In List.length];
    (split; [reflexivity|]); (split; [reflexivity|]);
    (split;
    [ intros path0 data0 HIn;
      first [ now destruct HIn
            | destruct HIn as [HIn|[]]; injection HIn as <- <-;
              exists name; now split ]
    | split;
      [ intros HNone; first [reflexivity | discriminate HNone]
      | intros err0 HSome HC;
        first [ discriminate HSome
              | injection HSome as <-;
                first [ destruct HC as [HC|HC]; discriminate HC
                      | split; [reflexivity | exact Hfs] ] ] ] ]).
Qed.

End PipelineExtras.

Section BatchExtras.
Context {E : Env}.

(** X6. An error that the archive's read returns, as opposed to a panic,
    is not one of the two skipped classes: it ends the batch at that
    path, four times wrapped with the collaborator's error as its cause,
    nothing is attempted for the paths after it, and main exits on it. *)
Theorem returned_read_error_aborts_batch
    (pre : list MPQ) (archive : MPQ) (post : list MPQ)
    (X key detail : string) (rest : list string) (lower : bool) (fs : FS) :
  lookupKey X = Some key ->
  misses pre key ->
  FileExists archive key = true ->
  ReadFile archive key = Failed detail ->
  let archives := pre ++ archive :: post in
  let n := List.length pre in
  let failure :=
    WithStack (WithStack (WithStack (WithStack (ErrForeign detail)))) in
  let evs := Stdout (MsgExtracting X) :: probes 0 pre key
               ++ [CallFileExists n key; CallReadFile n key] in
  extractAllFiles archives (X :: rest) lower fs = (Val (Some failure), fs, evs)
  /\ Cause failure = ErrForeign detail
  /\ (forall paths,
        map denormalize paths = X :: rest ->
        extractOrDie archives paths lower fs = (Exit (FatalError failure), fs, evs)).
Proof.
  intros Hkey Hmiss Hhit Hfail archives n failure evs.
  assert (Hread : readFile archives X fs =
            (Val (Err (WithStack (WithStack (ErrForeign detail)))), fs,
             probes 0 pre key ++ [CallFileExists n key; CallReadFile n key])).
  { unfold archives. rewrite readFile_key, Hkey.
    rewrite readFile_search_first by assumption.
    unfold served. now rewrite Hfail. }
  assert (Hrun : extractAllFiles archives (X :: rest) lower fs =
            (Val (Some failure), fs, evs)).
  { rewrite extractAllFiles_cons.
    now rewrite (extractFile_read_error archives X lower fs _ _ Hread). }
  split; [exact Hrun|]. split; [reflexivity|].
  intros paths Hpaths. unfold extractOrDie, bind.
  rewrite Hpaths, Hrun. unfold log_Fatalf. now rewrite app_nil_r.
Qed.

(** X7. The empty path anywhere in a batch crashes the run when the loop
    reaches it: extractFile announces it, readFile panics before asking
    any archive, nothing recovers the panic, and the paths after it are
    never attempted. *)
Theorem empty_path_crashes_batch
    (archives : list MPQ) (pre rest : list string) (lower : bool)
    (fs0 fs : FS) (evs0 : list event) :
  extractAllFiles archives pre lower fs0 = (Val None, fs, evs0) ->
  extractAllFiles archives (pre ++ "" :: rest) lower fs0 =
    (Panic "index out of range [0] with length 0", fs,
     evs0 ++ [Stdout (MsgExtracting "")])
  /\ (forall paths,
        map denormalize paths = pre ++ "" :: rest ->
        extractOrDie archives paths lower fs0 =
        (Panic "index out of range [0] with length 0", fs,
         evs0 ++ [Stdout (MsgExtracting "")])).
Proof.
  intros Hpre.
  assert (Hrun : extractAllFiles archives (pre ++ "" :: rest) lower fs0 =
            (Panic "index out of range [0] with length 0", fs,
             evs0 ++ [Stdout (MsgExtracting "")])).
  { rewrite extractAllFiles_app, Hpre, extractAllFiles_cons, extractFile_unfold.
    rewrite readFile_key. unfold lookupKey.
    now rewrite strings_ToLower_empty. }
  split; [exact Hrun|].
  intros paths Hpaths. unfold extractOrDie, bind. now rewrite Hpaths, Hrun.
Qed.

(** X8. Batches compose: running [pre ++ post] is running [pre] and,
    when that ends without a fatal error or panic, running [post] from
    the state [pre] left; otherwise it is the run of [pre] alone. *)
Theorem batches_compose
    (archives : list MPQ) (pre post : list string) (lower : bool) (fs : FS) :
  extractAllFiles archives (pre ++ post) lower fs =
  match extractAllFiles archives pre lower fs with
  | (Val None, fs1, evs) => after evs (extractAllFiles archives post lower fs1)
  | stopped => stopped
  end.
Proof. apply extractAllFiles_app. Qed.

Lemma skipped_skipLine filePath err :
  skipped [Logged (skipLine filePath err)] = [filePath].
Proof. unfold skipLine. destruct (Cause err); reflexivity. Qed.

Lemma attempted_skipLine filePath err :
  attempted [Logged (skipLine filePath err)] = [].
Proof. reflexivity. Qed.

Lemma written_skipLine filePath err :
  written [Logged (skipLine filePath err)] = [].
Proof. reflexivity. Qed.

(** X9. The loop announces the paths in batch order, each at most once:
    the announced paths are always a prefix of the batch, and the whole
    batch when the loop returns nil. *)
Theorem batch_attempts_paths_in_order
    (archives : list MPQ) (filePaths : list string) (lower : bool) (fs : FS) :
  exists rest,
    filePaths =
      attempted (snd (extractAllFiles archives filePaths lower fs)) ++ rest
    /\ (fst (fst (extractAllFiles archives filePaths lower fs)) = Val None ->
        rest = []).
Proof.
  revert fs. induction filePaths as [|p paths IH]; intros fs.
  - exists []. now split.
  - destruct (extractFile_summary archives p lower fs) as [Ha _].
    rewrite extractAllFiles_cons.
    destruct (extractFile archives p lower fs) as [[[[err|]|v|f] fs1] evs1];
      cbn [fst snd] in Ha.
    + destruct (Cause err);
        try (exists paths; cbn [fst snd]; rewrite Ha;
             split; [reflexivity | discriminate]);
        destruct (IH fs1) as [rest [Heq Hdone]]; exists rest;
        rewrite snd_after, fst_after, !attempted_app, Ha, attempted_skipLine;
        cbn [app]; (split; [now f_equal | exact Hdone]).
    + destruct (IH fs1) as [rest [Heq Hdone]]. exists rest.
      rewrite snd_after, fst_after, attempted_app, Ha. cbn [app].
      split; [now f_equal | exact Hdone].
    + exists paths. cbn [fst snd]. rewrite Ha. split; [reflexivity | discriminate].
    + exists paths. cbn [fst snd]. rewrite Ha. split; [reflexivity | discriminate].
Qed.

(** X10. When the loop returns nil, every path of the batch was either
    written or logged as skipped, never both and never neither: the
    writes and the skip lines together are as many as the paths, and
    each skip line names a path of the batch. *)
Theorem completed_batch_accounts_for_every_path
    (archives : list MPQ) (filePaths : list string) (lower : bool)
    (fs fs' : FS) (evs : list event) :
  extractAllFiles archives filePaths lower fs = (Val None, fs', evs) ->
  List.length (written evs) + List.length (skipped evs) = List.length filePaths
  /\ (forall p, In p (skipped evs) -> In p filePaths).
Proof.
  revert fs evs. induction filePaths as [|p paths IH]; intros fs evs.
  - cbn. unfold ret. intros H. injection H as _ <-. now split.
  - destruct (extractFile_summary archives p lower fs) as [_ [Hs [_ [Hn He]]]].
    rewrite extractAllFiles_cons.
    destruct (extractFile archives p lower fs) as [[[[err|]|v|f] fs1] evs1];
      cbn [fst snd] in *; try discriminate.
    + specialize (He err eq_refl).
      destruct (Cause err); try discriminate;
        (destruct He as [Hw _]; [tauto|]);
        destruct (extractAllFiles archives paths lower fs1)
          as [[r fs2] evs2] eqn:Hrest;
        cbn [after]; intros H; injection H as -> -> <-;
        destruct (IH _ _ Hrest) as [Hlen Hin];
        rewrite !written_app, !skipped_app, Hw, Hs, written_skipLine,
          skipped_skipLine;
        cbn [app List.length]; (split; [lia|]);
        (intros q [<-|Hq]; [now left | right; now apply Hin]).
    + specialize (Hn eq_refl).
      destruct (extractAllFiles archives paths lower fs1)
        as [[r fs2] evs2] eqn:Hrest.
      cbn [after]. intros H. injection H as -> -> <-.
      destruct (IH _ _ Hrest) as [Hlen Hin].
      rewrite written_app, skipped_app, Hs, length_app, Hn.
      cbn [app List.length]. split; [lia|].
      intros q Hq. right. now apply Hin.
Qed.

(** X11. A batch none of whose paths is reported by any archive ends
    normally: every path is logged as not found, in batch order, and
    these are the only skip lines; nothing is written, the file system
    is untouched, and main returns without a fatal error. *)
Theorem batch_of_missing_paths_ends_normally
    (archives : list MPQ) (filePaths : list string) (lower : bool) (fs : FS) :
  (forall p, In p filePaths ->
     exists key, lookupKey p = Some key /\ misses archives key) ->
  exists evs,
    extractAllFiles archives filePaths lower fs = (Val None, fs, evs)
    /\ written evs = []
    /\ loggedNotFound evs = filePaths
    /\ skipped evs = filePaths
    /\ (forall paths,
          map denormalize paths = filePaths ->
          extractOrDie archives paths lower fs = (Val tt, fs, evs)).
Proof.
  intros Hall.
  assert (Hrun : exists evs,
            extractAllFiles archives filePaths lower fs = (Val None, fs, evs)
            /\ written evs = [] /\ loggedNotFound evs = filePaths
            /\ skipped evs = filePaths).
  { induction filePaths as [|p paths IH].
    - exists []. now repeat split.
    - destruct (Hall p (or_introl eq_refl)) as [key [Hkey Hmiss]].
      destruct IH as [evs [Hrun [Hw [Hn Hs]]]];
        [intros q Hq; apply Hall; now right|].
      rewrite (not_found_is_skipped archives p key paths lower fs Hkey Hmiss).
      rewrite Hrun. cbn [after]. eexists. split; [reflexivity|].
      change (Stdout (MsgExtracting p)
                :: probes 0 archives key ++ [Logged (MsgFileNotFound p)])
        with ([Stdout (MsgExtracting p)]
                ++ probes 0 archives key ++ [Logged (MsgFileNotFound p)]).
      rewrite !written_app, !skipped_app, !loggedNotFound_app, Hw, Hn, Hs.
      destruct (probes_quiet 0 archives key) as [-> [-> ->]].
      now repeat split. }
  destruct Hrun as [evs [Hrun [Hw [Hn Hs]]]]. exists evs.
  repeat split; try assumption.
  intros paths Hpaths. unfold extractOrDie, bind. rewrite Hpaths, Hrun.
  unfold ret. now rewrite app_nil_r.
Qed.

Lemma batch_written_from_some_path archives filePaths lower fs w :
  In w (written (snd (extractAllFiles archives filePaths lower fs))) ->
  exists p fs0,
    In p filePaths
    /\ In w (written (snd (extractFile archives p lower fs0))).
Proof.
  revert fs. induction filePaths as [|p paths IH]; intros fs.
  - intros [].
  - rewrite extractAllFiles_cons.
    destruct (extractFile archives p lower fs) as [[r1 fs1] evs1] eqn:Hone.
    assert (Hhere : In w (written evs1) ->
              exists q fs0, In q (p :: paths)
                /\ In w (written (snd (extractFile archives q lower fs0)))).
    { intros Hw. exists p, fs. rewrite Hone. split; [now left | exact Hw]. }
    assert (Hthere : In w (written (snd (extractAllFiles archives paths lower fs1))) ->
              exists q fs0, In q (p :: paths)
                /\ In w (written (snd (extractFile archives q lower fs0)))).
    { intros Hw. destruct (IH fs1 Hw) as [q [fs0 [Hq Hin]]].
      exists q, fs0. split; [now right | exact Hin]. }
    destruct r1 as [[err|]|v|f]; [destruct (Cause err)| | |];
      rewrite ?snd_after, ?written_app, ?written_skipLine, ?app_nil_r;
      cbn [snd]; try exact Hhere;
      rewrite ?in_app_iff; intros [H|H]; auto.
Qed.

(** X12. Nothing is written that was not read: every file the loop hands
    to WriteFile belongs to a path of the batch, carries exactly the data
    that the first archive reporting the path's lookup key returned, and
    goes to the destination built from that archive's name and the path. *)
Theorem written_files_come_from_archives
    (archives : list MPQ) (filePaths : list string) (lower : bool) (fs : FS)
    (path data : string) :
  In (path, data) (written (snd (extractAllFiles archives filePaths lower fs))) ->
  exists filePath key pre archive post,
    In filePath filePaths
    /\ lookupKey filePath = Some key
    /\ archives = pre ++ archive :: post
    /\ misses pre key
    /\ FileExists archive key = true
    /\ ReadFile archive key = Done data
    /\ path = destination lower (FileName archive) filePath.
Proof.
  intros Hw.
  destruct (batch_written_from_some_path archives filePaths lower fs _ Hw)
    as [p [fs0 [Hp Hin]]].
  destruct (extractFile_summary archives p lower fs0) as [_ [_ [Hfrom _]]].
  destruct (Hfrom path data Hin) as [name [Hread ->]].
  destruct (readFile_ok_inv archives p fs0 data name Hread)
    as [key [pre [a [post [Hkey [Harch [Hmiss [Ha [Hd ->]]]]]]]]].
  exists p, key, pre, a, post. now repeat split.
Qed.

End BatchExtras.

(** ** Embedded listings and opening the archives *)

Section ListingExtras.
Context {E : Env}.

Lemma embeddedLoop_cons i archive rest filePaths fs :
  embeddedLoop i (archive :: rest) filePaths fs =
  after [CallGetFileList i]
    match GetFileList archive with
    | Done files => embeddedLoop (S i) rest (filePaths ++ files) fs
    | Failed detail => (Val (Err (WithStack (ErrForeign detail))), fs, [])
    | Panicked value => (Panic value, fs, [])
    end.
Proof.
  cbn [embeddedLoop]. unfold call_GetFileList.
  unfold bind at 1. rewrite bind_emit.
  destruct (GetFileList archive) as [files|detail|value];
    unfold ret, panic, after; reflexivity.
Qed.

Lemma embeddedLoop_listed i pre files tail filePaths fs :
  lists pre files ->
  embeddedLoop i (pre ++ tail) filePaths fs =
  after (listings i (List.length pre))
        (embeddedLoop (i + List.length pre) tail (filePaths ++ concat files) fs).
Proof.
  intros Hl. revert i filePaths.
  induction Hl as [|a l pre files Ha Hl IH]; intros i filePaths.
  - cbn [app List.length concat]. rewrite Nat.add_0_r, app_nil_r.
    unfold listings. cbn. now rewrite after_nil.
  - rewrite <- app_comm_cons, embeddedLoop_cons, Ha, IH, after_after.
    cbn [List.length concat]. rewrite Nat.add_succ_comm, app_assoc.
    reflexivity.
Qed.

Lemma listings_snoc i n : listings i (S n) = listings i n ++ [CallGetFileList (i + n)].
Proof.
  unfold listings. rewrite seq_S, map_app. reflexivity.
Qed.

(** X16. The embedded listing is the concatenation of the archives' own
    listings, in archive order and unfiltered: each archive is asked for
    its list once, no existence check is made, and duplicates across
    archives are kept. *)
Theorem embedded_listing_concatenates
    (archives : list MPQ) (files : list (list string)) (fs : FS) :
  lists archives files ->
  getFilePathsFromEmbeddedListfile archives fs =
  (Val (OK (concat files)), fs, listings 0 (List.length archives)).
Proof.
  intros Hl. unfold getFilePathsFromEmbeddedListfile.
  rewrite <- (app_nil_r archives) at 1.
  rewrite (embeddedLoop_listed 0 archives files [] [] fs Hl).
  cbn. unfold ret. now rewrite app_nil_r.
Qed.

(** X17. The embedded listing stops at the first archive whose listing
    fails: the lists gathered so far are dropped, the error comes back
    wrapped, and the archives after it are not asked.  A panic of the
    listing is not recovered and escapes. *)
Theorem embedded_listing_stops_at_first_failure
    (pre : list MPQ) (archive : MPQ) (post : list MPQ)
    (files : list (list string)) (fs : FS) :
  lists pre files ->
  (forall detail,
     GetFileList archive = Failed detail ->
     getFilePathsFromEmbeddedListfile (pre ++ archive :: post) fs =
     (Val (Err (WithStack (ErrForeign detail))), fs,
      listings 0 (S (List.length pre))))
  /\ (forall value,
        GetFileList archive = Panicked value ->
        getFilePathsFromEmbeddedListfile (pre ++ archive :: post) fs =
        (Panic value, fs, listings 0 (S (List.length pre)))).
Proof.
  intros Hl. unfold getFilePathsFromEmbeddedListfile.
  rewrite (embeddedLoop_listed 0 pre files (archive :: post) [] fs Hl).
  rewrite embeddedLoop_cons, after_after, listings_snoc.
  split; intros x Hx; rewrite Hx; cbn [after]; now rewrite app_nil_r.
Qed.

Lemma getFilePaths_loop_cons i archive rest filePaths fs :
  Cmd.getFilePaths_loop i (archive :: rest) filePaths fs =
  after [Stdout (MsgArchive (FileName archive)); CallGetFileList i]
    match GetFileList archive with
    | Done files => Cmd.getFilePaths_loop (S i) rest (filePaths ++ files) fs
    | Failed detail => (Val (Err (WithStack (ErrForeign detail))), fs, [])
    | Panicked value => (Panic value, fs, [])
    end.
Proof.
  cbn [Cmd.getFilePaths_loop]. rewrite bind_emit.
  unfold call_GetFileList. unfold bind at 1. rewrite bind_emit.
  destruct (GetFileList archive) as [files|detail|value];
    unfold ret, panic, after; try reflexivity;
    try (destruct (Cmd.getFilePaths_loop (S i) rest (filePaths ++ files) fs)
           as [[r fs'] evs]; reflexivity).
Qed.

Lemma getFilePaths_loop_agrees i archives filePaths fs :
  fst (Cmd.getFilePaths_loop i archives filePaths fs) =
    fst (embeddedLoop i archives filePaths fs)
  /\ consulted (snd (Cmd.getFilePaths_loop i archives filePaths fs)) =
       consulted (snd (embeddedLoop i archives filePaths fs)).
Proof.
  revert i filePaths. induction archives as [|a rest IH]; intros i filePaths.
  - now split.
  - rewrite getFilePaths_loop_cons, embeddedLoop_cons.
    rewrite !fst_after, !snd_after, !consulted_app.
    destruct (GetFileList a) as [files|detail|value]; try now split.
    destruct (IH (S i) (filePaths ++ files)) as [H1 H2].
    now rewrite H1, H2.
Qed.

(** X18. getFilePaths of the first program and the embedded listing of
    the later ones return the same result from the same archives and ask
    the same archives in the same order; the first only prints each
    archive's name before asking it. *)
Theorem getFilePaths_agrees_with_embedded_listing
    (archives : list MPQ) (fs : FS) :
  fst (Cmd.getFilePaths archives fs) =
    fst (getFilePathsFromEmbeddedListfile archives fs)
  /\ consulted (snd (Cmd.getFilePaths archives fs)) =
       consulted (snd (getFilePathsFromEmbeddedListfile archives fs)).
Proof. apply getFilePaths_loop_agrees. Qed.

Lemma openArchives_cons mpqPath rest archives fs :
  openArchives (mpqPath :: rest) archives fs =
  after [CallLoad mpqPath]
    match mpq_Load mpqPath fs with
    | inl detail => (Exit (FatalError (WithStack (ErrForeign detail))), fs, [])
    | inr archive => openArchives rest (archives ++ [archive]) fs
    end.
Proof.
  cbn [openArchives]. unfold bind, call_Load.
  destruct (mpq_Load mpqPath fs) as [detail|archive]; [reflexivity|].
  destruct (openArchives rest (archives ++ [archive]) fs) as [[r fs'] evs].
  reflexivity.
Qed.

Lemma openArchives_opened pre loaded tail archives fs :
  opens fs pre loaded ->
  openArchives (pre ++ tail) archives fs =
  after (map CallLoad pre) (openArchives tail (archives ++ loaded) fs).
Proof.
  intros Ho. revert archives.
  induction Ho as [|p a pre loaded Hp Ho IH]; intros archives.
  - cbn [app map]. now rewrite app_nil_r, after_nil.
  - rewrite <- app_comm_cons, openArchives_cons, Hp, IH, after_after.
    now rewrite <- app_assoc.
Qed.

Lemma openArchives_all mpqPaths loaded archives fs :
  opens fs mpqPaths loaded ->
  openArchives mpqPaths archives fs =
  (Val (archives ++ loaded), fs, map CallLoad mpqPaths).
Proof.
  intros Ho. rewrite <- (app_nil_r mpqPaths) at 1.
  rewrite (openArchives_opened mpqPaths loaded [] archives fs Ho).
  cbn. unfold ret. now rewrite app_nil_r.
Qed.

(** X19. When every path opens, openArchives returns the archives in
    the order of the paths, after the ones it was given, having loaded
    each path once and nothing else. *)
Theorem openArchives_keeps_path_order
    (mpqPaths : list string) (loaded archives : list MPQ) (fs : FS) :
  opens fs mpqPaths loaded ->
  openArchives mpqPaths archives fs =
    (Val (archives ++ loaded), fs, map CallLoad mpqPaths)
  /\ List.length loaded = List.length mpqPaths.
Proof.
  intros Ho. split; [now apply openArchives_all|].
  symmetry. exact (Forall2_length Ho).
Qed.

(** X20. The first archive that fails to open ends the run: the process
    exits with the wrapped error of the load, and the paths after it are
    not opened. *)
Theorem openArchives_exits_at_first_failure
    (pre : list string) (mpqPath : string) (post : list string)
    (loaded archives : list MPQ) (detail : string) (fs : FS) :
  opens fs pre loaded ->
  mpq_Load mpqPath fs = inl detail ->
  openArchives (pre ++ mpqPath :: post) archives fs =
  (Exit (FatalError (WithStack (ErrForeign detail))), fs,
   map CallLoad (pre ++ [mpqPath])).
Proof.
  intros Ho Hfail.
  rewrite (openArchives_opened pre loaded (mpqPath :: post) archives fs Ho).
  rewrite openArchives_cons, Hfail, after_after. cbn [after].
  now rewrite app_nil_r, map_app.
Qed.

End ListingExtras.

(** ** Strategy selection without an explicit list *)

Section SelectionExtras.
Context {E : Env}.

Lemma getFilePaths_loop_listed i archives files filePaths fs :
  lists archives files ->
  Cmd.getFilePaths_loop i archives filePaths fs =
  (Val (OK (filePaths ++ concat files)), fs, announcedListings i archives).
Proof.
  intros Hl. revert i filePaths.
  induction Hl as [|a l archives files Ha Hl IH]; intros i filePaths.
  - cbn. unfold ret. now rewrite app_nil_r.
  - rewrite getFilePaths_loop_cons, Ha, IH. cbn [after concat app announcedListings].
    now rewrite app_assoc.
Qed.

Lemma getFilePathsFromListfile_read archives listfilePath buf fs :
  ioutil_ReadFile listfilePath fs = inr buf ->
  exists evs,
    Forall isProbe evs
    /\ getFilePathsFromListfile archives listfilePath fs =
       (Val (OK (listed archives (bufio_Scan buf))), fs,
        CallIoReadFile listfilePath :: evs).
Proof.
  intros Hio.
  unfold getFilePathsFromListfile, bind, call_IoReadFile. rewrite Hio.
  destruct (scanListfile_probes archives (bufio_Scan buf) [] fs)
    as [evs [Hrun Hall]].
  rewrite Hrun. exists evs. unfold ret. rewrite app_nil_r. now split.
Qed.

Lemma getFilePathsFromListfile_unreadable archives listfilePath detail fs :
  ioutil_ReadFile listfilePath fs = inl detail ->
  getFilePathsFromListfile archives listfilePath fs =
  (Val (Err (WithStack (ErrForeign detail))), fs, [CallIoReadFile listfilePath]).
Proof.
  intros Hio.
  unfold getFilePathsFromListfile, bind, call_IoReadFile. now rewrite Hio.
Qed.

Ltac project_flags :=
  cbn [Cmd.rawFilePaths Cmd.all Listfile.rawFilePaths Listfile.all
       Listfile.listfilePath Bundled.rawFilePaths Bundled.all
       Bundled.embedded Bundled.listfilePath].

Ltac select_branch :=
  cbn [Cmd.rawFilePaths Cmd.all Listfile.rawFilePaths Listfile.all
       Listfile.listfilePath Bundled.rawFilePaths Bundled.all
       Bundled.embedded Bundled.listfilePath
       String.length Nat.ltb Nat.leb List.length Nat.eqb negb].

(** X21. Without an explicit list and without the all flag, every main
    exits with the no-files error, and only after it has opened all the
    archives: nothing is listed, checked or extracted. *)
Theorem nothing_selected_is_fatal
    (args : list string) (dir l : string) (e lo : bool)
    (archives : list MPQ) (fs : FS) :
  opens fs (getMpqPaths args dir) archives ->
  Cmd.main {| Cmd.all := false; Cmd.mpqDir := dir;
              Cmd.rawFilePaths := ""; Cmd.args := args |} fs =
    (Exit FatalNoFiles, fs, map CallLoad (getMpqPaths args dir))
  /\ Listfile.main {| Listfile.all := false; Listfile.mpqDir := dir;
                      Listfile.listfilePath := l;
                      Listfile.rawFilePaths := ""; Listfile.args := args |} fs =
    (Exit FatalNoFiles, fs, map CallLoad (getMpqPaths args dir))
  /\ Bundled.main {| Bundled.all := false; Bundled.embedded := e;
                     Bundled.rawFilePaths := ""; Bundled.listfilePath := l;
                     Bundled.lower := lo; Bundled.mpqDir := dir;
                     Bundled.args := args |} fs =
    (Exit FatalNoFiles, fs, map CallLoad (getMpqPaths args dir)).
Proof.
  intros Ho.
  pose proof (openArchives_all (getMpqPaths args dir) archives [] fs Ho) as Hopen.
  repeat split.
  - unfold Cmd.main. cbn [Cmd.args Cmd.mpqDir]. unfold bind at 1. rewrite Hopen.
    unfold bind at 1, Cmd.filePathsToExtract. select_branch.
    unfold log_Fatalf. now rewrite app_nil_r.
  - unfold Listfile.main. cbn [Listfile.args Listfile.mpqDir].
    unfold bind at 1. rewrite Hopen.
    unfold bind at 1, Listfile.filePathsToExtract. select_branch.
    unfold log_Fatalf. now rewrite app_nil_r.
  - unfold Bundled.main. cbn [Bundled.args Bundled.mpqDir].
    unfold bind at 1. rewrite Hopen.
    unfold bind at 1, Bundled.filePathsToExtract. select_branch.
    unfold log_Fatalf. now rewrite app_nil_r.
Qed.

(** X22. The embedded strategy takes the archives' listings as they are,
    in all three programs: with the all flag and no explicit list, the
    first program always, the second when the listfile path is empty,
    and the third when the embedded flag is set (whatever the listfile
    path) select the concatenation of the listings, with no existence
    check and no listfile read. *)
Theorem embedded_strategy_selects_listings
    (archives : list MPQ) (files : list (list string))
    (args : list string) (dir l : string) (lo : bool) (fs : FS) :
  lists archives files ->
  Cmd.filePathsToExtract
    {| Cmd.all := true; Cmd.mpqDir := dir;
       Cmd.rawFilePaths := ""; Cmd.args := args |} archives fs =
    (Val (concat files), fs, announcedListings 0 archives)
  /\ Listfile.filePathsToExtract
       {| Listfile.all := true; Listfile.mpqDir := dir;
          Listfile.listfilePath := "";
          Listfile.rawFilePaths := ""; Listfile.args := args |} archives fs =
    (Val (concat files), fs,
     Stdout MsgFromEmbedded :: listings 0 (List.length archives))
  /\ Bundled.filePathsToExtract
       {| Bundled.all := true; Bundled.embedded := true;
          Bundled.rawFilePaths := ""; Bundled.listfilePath := l;
          Bundled.lower := lo; Bundled.mpqDir := dir;
          Bundled.args := args |} archives fs =
    (Val (concat files), fs,
     Stdout MsgFromEmbedded :: listings 0 (List.length archives)).
Proof.
  intros Hl.
  pose proof (embeddedLoop_listed 0 archives files [] [] fs Hl) as Hemb.
  rewrite app_nil_r in Hemb. cbn in Hemb. unfold ret in Hemb.
  rewrite app_nil_r in Hemb.
  repeat split.
  - unfold Cmd.filePathsToExtract. select_branch.
    unfold bind, Cmd.getFilePaths.
    rewrite (getFilePaths_loop_listed 0 archives files [] fs Hl).
    unfold ret. now rewrite app_nil_r.
  - unfold Listfile.filePathsToExtract. select_branch.
    rewrite bind_emit. unfold bind, getFilePathsFromEmbeddedListfile.
    rewrite Hemb. unfold ret. cbn [after app]. now rewrite app_nil_r.
  - unfold Bundled.filePathsToExtract. select_branch.
    rewrite bind_emit. unfold bind, getFilePathsFromEmbeddedListfile.
    rewrite Hemb. unfold ret. cbn [after app]. now rewrite app_nil_r.
Qed.

Lemma bind_val {A B} (m : M A) (k : A -> M B) fs a fs1 evs :
  m fs = (Val a, fs1, evs) -> bind m k fs = after evs (k a fs1).
Proof.
  intros Hm. unfold bind. rewrite Hm.
  destruct (k a fs1) as [[r fs2] evs2]. reflexivity.
Qed.

(** X23. With the listfile strategy, main denormalizes the paths its
    filter kept once more before it extracts them.  When no scanned
    line of the listfile starts with two separators this changes
    nothing: both mains of src/main.go open the archives, run the
    filter, and then run the extraction loop on exactly the paths the
    filter returned. *)
Theorem filtered_paths_survive_main
    (archives : list MPQ) (args : list string) (dir l buf : string)
    (lo : bool) (fs : FS) :
  opens fs (getMpqPaths args dir) archives ->
  l <> "" ->
  ioutil_ReadFile l fs = inr buf ->
  (forall line, In line (bufio_Scan buf) ->
     strings_HasPrefix (denormalize line) "\" = false) ->
  exists evs,
    getFilePathsFromListfile archives l fs =
      (Val (OK (listed archives (bufio_Scan buf))), fs, CallIoReadFile l :: evs)
    /\ map denormalize (listed archives (bufio_Scan buf)) =
         listed archives (bufio_Scan buf)
    /\ Listfile.main
         {| Listfile.all := true; Listfile.mpqDir := dir;
            Listfile.listfilePath := l;
            Listfile.rawFilePaths := ""; Listfile.args := args |} fs =
       after (map CallLoad (getMpqPaths args dir)
                ++ Stdout MsgFromListfile :: CallIoReadFile l :: evs)
         ((e <- extractAllFiles archives (listed archives (bufio_Scan buf)) false ;;
           match e with
           | Some err => log_Fatalf (FatalError err)
           | None => ret tt
           end) fs)
    /\ Bundled.main
         {| Bundled.all := true; Bundled.embedded := false;
            Bundled.rawFilePaths := ""; Bundled.listfilePath := l;
            Bundled.lower := lo; Bundled.mpqDir := dir;
            Bundled.args := args |} fs =
       after (map CallLoad (getMpqPaths args dir)
                ++ Stdout (MsgFromListfileAt l) :: CallIoReadFile l :: evs)
         ((e <- extractAllFiles archives (listed archives (bufio_Scan buf)) lo ;;
           match e with
           | Some err => log_Fatalf (FatalError err)
           | None => ret tt
           end) fs).
Proof.
  intros Ho Hl Hio Hlines.
  pose proof (openArchives_all (getMpqPaths args dir) archives [] fs Ho) as Hopen.
  cbn [app] in Hopen.
  pose proof (listed_denormalize_stable archives (bufio_Scan buf) Hlines) as Hstable.
  destruct (getFilePathsFromListfile_read archives l buf fs Hio)
    as [evs [_ Hrun]].
  exists evs. split; [exact Hrun|]. split; [exact Hstable|]. split.
  - unfold Listfile.main. cbn [Listfile.args Listfile.mpqDir].
    rewrite (bind_val _ _ _ _ _ _ Hopen).
    assert (Hsel : Listfile.filePathsToExtract
              {| Listfile.all := true; Listfile.mpqDir := dir;
                 Listfile.listfilePath := l;
                 Listfile.rawFilePaths := ""; Listfile.args := args |}
              archives fs =
            (Val (listed archives (bufio_Scan buf)), fs,
             Stdout MsgFromListfile :: CallIoReadFile l :: evs)).
    { unfold Listfile.filePathsToExtract. project_flags.
      rewrite (length_nonempty l Hl). select_branch. rewrite bind_emit.
      unfold bind. rewrite Hrun. unfold ret. cbn [after app].
      now rewrite app_nil_r. }
    rewrite (bind_val _ _ _ _ _ _ Hsel), after_after.
    unfold extractOrDie. now rewrite Hstable.
  - unfold Bundled.main. cbn [Bundled.args Bundled.mpqDir Bundled.lower].
    rewrite (bind_val _ _ _ _ _ _ Hopen).
    assert (Hsel : Bundled.filePathsToExtract
              {| Bundled.all := true; Bundled.embedded := false;
                 Bundled.rawFilePaths := ""; Bundled.listfilePath := l;
                 Bundled.lower := lo; Bundled.mpqDir := dir;
                 Bundled.args := args |}
              archives fs =
            (Val (listed archives (bufio_Scan buf)), fs,
             Stdout (MsgFromListfileAt l) :: CallIoReadFile l :: evs)).
    { unfold Bundled.filePathsToExtract. project_flags.
      rewrite (length_nonempty l Hl). select_branch. rewrite bind_emit.
      unfold bind. rewrite Hrun. unfold ret. cbn [after app].
      now rewrite app_nil_r. }
    rewrite (bind_val _ _ _ _ _ _ Hsel), after_after.
    unfold extractOrDie. now rewrite Hstable.
Qed.


(** X15. A listfile that cannot be read is fatal: the filter returns the
    wrapped error of the read without asking any archive, and the
    selection of both later programs exits on it. *)
Theorem unreadable_listfile_is_fatal
    (archives : list MPQ) (args : list string) (dir l detail : string)
    (lo : bool) (fs : FS) :
  l <> "" ->
  ioutil_ReadFile l fs = inl detail ->
  getFilePathsFromListfile archives l fs =
    (Val (Err (WithStack (ErrForeign detail))), fs, [CallIoReadFile l])
  /\ Listfile.filePathsToExtract
       {| Listfile.all := true; Listfile.mpqDir := dir;
          Listfile.listfilePath := l;
          Listfile.rawFilePaths := ""; Listfile.args := args |} archives fs =
     (Exit (FatalError (WithStack (ErrForeign detail))), fs,
      [Stdout MsgFromListfile; CallIoReadFile l])
  /\ Bundled.filePathsToExtract
       {| Bundled.all := true; Bundled.embedded := false;
          Bundled.rawFilePaths := ""; Bundled.listfilePath := l;
          Bundled.lower := lo; Bundled.mpqDir := dir;
          Bundled.args := args |} archives fs =
     (Exit (FatalError (WithStack (ErrForeign detail))), fs,
      [Stdout (MsgFromListfileAt l); CallIoReadFile l]).
Proof.
  intros Hl Hio.
  pose proof (getFilePathsFromListfile_unreadable archives l detail fs Hio)
    as Hrun.
  split; [exact Hrun|]. split.
  - unfold Listfile.filePathsToExtract. project_flags.
    rewrite (length_nonempty l Hl). select_branch. rewrite bind_emit. unfold bind. rewrite Hrun.
    reflexivity.
  - unfold Bundled.filePathsToExtract. project_flags.
    rewrite (length_nonempty l Hl). select_branch. rewrite bind_emit. unfold bind. rewrite Hrun.
    reflexivity.
Qed.

(** X25. The bundled listfile is the fallback of the third program
    only: with the all flag, no explicit list, the embedded flag unset
    and an empty listfile path, it selects the native forms of the
    bundled listfile's lines that some archive reports, reading no file
    and only asking the archives whether paths exist. *)
Theorem bundled_listfile_is_the_fallback
    (archives : list MPQ) (args : list string) (dir : string)
    (lo : bool) (fs : FS) :
  exists evs,
    Forall isProbe evs
    /\ Bundled.filePathsToExtract
         {| Bundled.all := true; Bundled.embedded := false;
            Bundled.rawFilePaths := ""; Bundled.listfilePath := "";
            Bundled.lower := lo; Bundled.mpqDir := dir;
            Bundled.args := args |} archives fs =
       (Val (listed archives (bufio_Scan rawListfile)), fs,
        Stdout MsgFromBundled :: evs).
Proof.
  destruct (scanListfile_probes archives (bufio_Scan rawListfile) [] fs)
    as [evs [Hrun Hall]].
  exists evs. split; [exact Hall|].
  unfold Bundled.filePathsToExtract. select_branch.
  rewrite bind_emit. unfold getFilePathsFromBundledListfile, bind.
  rewrite Hrun. unfold ret. cbn [after app]. now rewrite !app_nil_r.
Qed.

End SelectionExtras.

(** ** From the filter to the extraction *)

Section FilterToExtraction.
Context {E : Env}.

(** X5. A path kept by a listfile filter is found again at extraction
    when it is non-empty, has no leading separator left and is already
    in lower case: readFile then looks up the very key the filter
    checked and is served by the first archive that reports it.  (For a
    path in mixed case readFile looks up the lower-cased key instead,
    which the archives may not report.) *)
Theorem filtered_entry_is_found
    (archives : list MPQ) (lines : list string) (entry : string) (fs : FS) :
  In entry (listed archives lines) ->
  strings_ToLower entry = entry ->
  entry <> "" ->
  strings_HasPrefix entry "\" = false ->
  lookupKey entry = Some entry
  /\ exists pre archive post,
       archives = pre ++ archive :: post
       /\ misses pre entry
       /\ FileExists archive entry = true
       /\ readFile archives entry fs =
          (Val (served archive entry), fs,
           probes 0 pre entry
             ++ [CallFileExists (List.length pre) entry;
                 CallReadFile (List.length pre) entry]).
Proof.
  intros Hin Hlower Hne Hlead.
  apply listed_iff in Hin as [line [_ [Hentry Hpresent]]].
  assert (Hkey : lookupKey entry = Some entry).
  { unfold lookupKey. rewrite Hlower.
    rewrite (ReplaceAll_fresh entry slash backslash)
      by (rewrite Hentry; apply denormalize_no_slash).
    rewrite HasPrefix_byte in Hlead.
    destruct entry as [|c rest]; [now destruct Hne|].
    cbn [String.get]. unfold backslash. now rewrite Hlead. }
  split; [exact Hkey|].
  apply present_iff in Hpresent as [a [Ha Hhit]]. rewrite <- Hentry in Hhit.
  destruct (first_reporting archives entry)
    as [Hmiss | [pre [b [post [-> [Hmiss Hb]]]]]].
  - rewrite (Hmiss a Ha) in Hhit. discriminate.
  - exists pre, b, post. repeat split; try assumption.
    rewrite readFile_key, Hkey.
    now rewrite readFile_search_first by assumption.
Qed.

End FilterToExtraction.

(** ** The program on concrete inputs *)

#[local] Existing Instance Sim.env.

Lemma misses_nil key : misses [] key.
Proof. intros archive []. Qed.

Example denormalize_books :
  denormalize "/data/global/excel/books.txt" = "data\global\excel\books.txt".
Proof. reflexivity. Qed.

(** Only one leading separator is removed. *)
Example denormalize_two_leading : denormalize "//a" = "\a".
Proof. reflexivity. Qed.

Lemma readFile_first_reporting_archive_witness :
  lookupKey "/Data/X.txt" = Some "data\x.txt" /\
  FileExists Sim.archiveA "data\x.txt" = true /\
  FileExists Sim.archiveB "data\x.txt" = true /\
  readFile [Sim.archiveA; Sim.archiveB] "/Data/X.txt" Sim.gameDisk =
    (Val (OK ("1", "A.mpq")), Sim.gameDisk,
     [CallFileExists 0 "data\x.txt"; CallReadFile 0 "data\x.txt"]).
Proof.
  split; [reflexivity|]. split; [reflexivity|]. split; [reflexivity|].
  exact (proj1 (readFile_first_reporting_archive (E:=Sim.env)
                  [] Sim.archiveA [Sim.archiveB] "/Data/X.txt" "data\x.txt"
                  Sim.gameDisk eq_refl (misses_nil _) eq_refl)).
Defined.

(** The archives before the first that reports the path are asked and
    passed over. *)
Example readFile_second_archive :
  readFile [Sim.archiveA; Sim.archiveB] "/data/y.txt" Sim.gameDisk =
    (Val (OK ("3", "B.mpq")), Sim.gameDisk,
     [CallFileExists 0 "data\y.txt"; CallFileExists 1 "data\y.txt";
      CallReadFile 1 "data\y.txt"]).
Proof. reflexivity. Qed.

Lemma readFile_no_fallback_witness :
  FileExists Sim.archiveB "data\x.txt" = true /\
  ReadFile Sim.archiveB "data\x.txt" = Done "2" /\
  exists err,
    readFile [Sim.archiveD; Sim.archiveB] "data\x.txt" Sim.emptyDisk =
      (Val (Err err), Sim.emptyDisk,
       [CallFileExists 0 "data\x.txt"; CallReadFile 0 "data\x.txt"])
    /\ Cause err = ErrFileRead.
Proof.
  split; [reflexivity|]. split; [reflexivity|].
  destruct (readFile_no_fallback (E:=Sim.env)
              [] Sim.archiveD [Sim.archiveB] "data\x.txt" "data\x.txt"
              Sim.emptyDisk eq_refl (misses_nil _) eq_refl
              (fun data H => match H with eq_refl => I end))
    as [err [Hrun [Hpanic _]]].
  exists err. split; [exact Hrun|].
  exact (proj2 (Hpanic _ eq_refl)).
Defined.

(** The empty explicit path crashes the whole run: `-files "/"`. *)
Example main_crashes_on_separator_only :
  Bundled.main {| Bundled.all := false; Bundled.embedded := false;
                  Bundled.rawFilePaths := "/";
                  Bundled.listfilePath := "listfile.txt";
                  Bundled.lower := false; Bundled.mpqDir := ".";
                  Bundled.args := ["A.mpq"] |} Sim.gameDisk =
  (Panic "index out of range [0] with length 0", Sim.gameDisk,
   [CallLoad "A.mpq"; Stdout (MsgExtracting "")]).
Proof. reflexivity. Qed.

Lemma read_panic_is_logged_and_skipped_witness :
  ReadFile Sim.archiveD "data\x.txt" =
    Panicked "runtime error: slice bounds out of range" /\
  extractAllFiles [Sim.archiveD; Sim.archiveB] ["data\x.txt"; "data\y.txt"]
                  false Sim.emptyDisk =
    (Val None,
     {| Sim.textFiles := [("_dump_/B/data/y.txt", "3")];
        Sim.mpqFiles := []; Sim.denied := [] |},
     [Stdout (MsgExtracting "data\x.txt");
      CallFileExists 0 "data\x.txt"; CallReadFile 0 "data\x.txt";
      Logged (MsgFileReadError "data\x.txt"
                (WithStack (WithStack
                   (Wrap ErrFileRead "runtime error: slice bounds out of range"))));
      Stdout (MsgExtracting "data\y.txt");
      CallFileExists 0 "data\y.txt"; CallFileExists 1 "data\y.txt";
      CallReadFile 1 "data\y.txt";
      Stdout (MsgCreating "_dump_/B/data/y.txt");
      CallMkdirAll "_dump_/B/data";
      CallWriteFile "_dump_/B/data/y.txt" "3"]).
Proof.
  split; [reflexivity|].
  exact (eq_trans
           (proj1 (proj2 (proj2
              (read_panic_is_logged_and_skipped (E:=Sim.env)
                 [] Sim.archiveD [Sim.archiveB] "data\x.txt" "data\x.txt"
                 "runtime error: slice bounds out of range" ["data\y.txt"]
                 false Sim.emptyDisk eq_refl (misses_nil _) eq_refl eq_refl))))
           eq_refl).
Defined.

(** A path no archive holds is skipped the same way. *)
Example not_found_then_next :
  extractAllFiles [Sim.archiveA] ["data\missing.txt"; "data\x.txt"]
                  false Sim.emptyDisk =
    (Val None,
     {| Sim.textFiles := [("_dump_/A/data/x.txt", "1")];
        Sim.mpqFiles := []; Sim.denied := [] |},
     [Stdout (MsgExtracting "data\missing.txt");
      CallFileExists 0 "data\missing.txt";
      Logged (MsgFileNotFound "data\missing.txt");
      Stdout (MsgExtracting "data\x.txt");
      CallFileExists 0 "data\x.txt"; CallReadFile 0 "data\x.txt";
      Stdout (MsgCreating "_dump_/A/data/x.txt");
      CallMkdirAll "_dump_/A/data";
      CallWriteFile "_dump_/A/data/x.txt" "1"]).
Proof. reflexivity. Qed.

(** An error returned by the read, not a panic, keeps the collaborator's
    error as its cause: it is neither skipped class and ends the batch. *)
Example returned_read_error_ends_batch :
  let broken := {| FileName := "C.mpq";
                   FileExists := fun _ => true;
                   ReadFile := fun _ => Failed "checksum mismatch";
                   GetFileList := Done [] |} in
  extractAllFiles [broken] ["data\x.txt"; "data\y.txt"] false Sim.emptyDisk =
    (Val (Some (WithStack (WithStack (WithStack (WithStack
                  (ErrForeign "checksum mismatch")))))),
     Sim.emptyDisk,
     [Stdout (MsgExtracting "data\x.txt");
      CallFileExists 0 "data\x.txt"; CallReadFile 0 "data\x.txt"]).
Proof. reflexivity. Qed.

Lemma write_failure_aborts_batch_witness :
  Sim.MkdirAll "_dump_/A/data" Sim.readOnlyDisk =
    (Some "permission denied", Sim.readOnlyDisk) /\
  extractOrDie [Sim.archiveA; Sim.archiveB] ["/data/x.txt"; "/data/y.txt"]
               false Sim.readOnlyDisk =
    (Exit (FatalError (WithStack (WithStack (ErrForeign "permission denied")))),
     Sim.readOnlyDisk,
     [Stdout (MsgExtracting "data\x.txt");
      CallFileExists 0 "data\x.txt"; CallReadFile 0 "data\x.txt";
      Stdout (MsgCreating "_dump_/A/data/x.txt");
      CallMkdirAll "_dump_/A/data"]).
Proof.
  split; [reflexivity|].
  exact (proj2 (proj2 (proj2 (proj2
           (write_failure_aborts_batch (E:=Sim.env)
              [Sim.archiveA; Sim.archiveB] [] "data\x.txt" ["data\y.txt"] false
              Sim.readOnlyDisk Sim.readOnlyDisk Sim.readOnlyDisk
              [] [CallFileExists 0 "data\x.txt"; CallReadFile 0 "data\x.txt"]
              [CallMkdirAll "_dump_/A/data"] "1" "A.mpq" "permission denied"
              eq_refl eq_refl (or_introl (conj eq_refl eq_refl))))))
           ["/data/x.txt"; "/data/y.txt"] eq_refl).
Defined.

Lemma lowercase_destination_witness :
  readFile [Sim.archiveA] "Data\X.TXT" Sim.emptyDisk =
    (Val (OK ("1", "A.mpq")), Sim.emptyDisk,
     [CallFileExists 0 "data\x.txt"; CallReadFile 0 "data\x.txt"]) /\
  extractFile [Sim.archiveA] "Data\X.TXT" false Sim.emptyDisk =
    (Val None,
     {| Sim.textFiles := [("_dump_/A/Data/X.TXT", "1")];
        Sim.mpqFiles := []; Sim.denied := [] |},
     [Stdout (MsgExtracting "Data\X.TXT");
      CallFileExists 0 "data\x.txt"; CallReadFile 0 "data\x.txt";
      Stdout (MsgCreating "_dump_/A/Data/X.TXT");
      CallMkdirAll "_dump_/A/Data";
      CallWriteFile "_dump_/A/Data/X.TXT" "1"]) /\
  extractFile [Sim.archiveA] "Data\X.TXT" true Sim.emptyDisk =
    (Val None,
     {| Sim.textFiles := [("_dump_/a/data/x.txt", "1")];
        Sim.mpqFiles := []; Sim.denied := [] |},
     [Stdout (MsgExtracting "Data\X.TXT");
      CallFileExists 0 "data\x.txt"; CallReadFile 0 "data\x.txt";
      Stdout (MsgCreating "_dump_/a/data/x.txt");
      CallMkdirAll "_dump_/a/data";
      CallWriteFile "_dump_/a/data/x.txt" "1"]).
Proof.
  split; [reflexivity|].
  destruct (lowercase_destination (E:=Sim.env)
              [Sim.archiveA] "Data\X.TXT" Sim.emptyDisk "1" "A.mpq"
              [CallFileExists 0 "data\x.txt"; CallReadFile 0 "data\x.txt"]
              eq_refl) as [Hunset [Hset _]].
  split.
  - exact (eq_trans Hunset eq_refl).
  - exact (eq_trans Hset eq_refl).
Defined.

Lemma listfile_filter_keeps_reported_lines_witness :
  Sim.IoReadFile "listfile.txt" Sim.gameDisk =
    inr (String.append "data/x.txt"
           (String Sim.newline
              (String.append "data/missing.txt" (String Sim.newline "")))) /\
  exists evs,
    getFilePathsFromListfile [Sim.archiveA; Sim.archiveB] "listfile.txt"
                             Sim.gameDisk =
    (Val (OK ["data\x.txt"]), Sim.gameDisk, evs).
Proof.
  split; [reflexivity|].
  exact (proj1 (proj2
           (listfile_filter_keeps_reported_lines (E:=Sim.env)
              [Sim.archiveA; Sim.archiveB] "" "listfile.txt" _ Sim.gameDisk
              eq_refl))).
Defined.

(** A listfile line in mixed case reaches FileExists in mixed case, and a
    path with two leading separators reaches it with one left. *)
Lemma lookup_key_not_native_lower :
  ~ (forall key,
       In key (keysPassed (snd (getFilePathsFromBundledListfile
                                  [Sim.archiveM] "/Data/Global/Excel/Books.txt"
                                  Sim.emptyDisk))) ->
       isNativeLower key = true)
  /\ ~ (forall key,
          In key (keysPassed (snd (readFile [Sim.archiveA] "//data/x.txt"
                                            Sim.emptyDisk))) ->
          isNativeLower key = true).
Proof.
  split; intros H.
  - specialize (H "Data\Global\Excel\Books.txt" (or_introl eq_refl)).
    discriminate H.
  - specialize (H "\data\x.txt" (or_introl eq_refl)).
    discriminate H.
Qed.

Lemma lookup_keys_are_native_forms_witness :
  In "data\x.txt"
     (keysPassed (snd (readFile [Sim.archiveA] "/Data/X.txt" Sim.emptyDisk))) /\
  "data\x.txt" = denormalize (Sim.ToLower "/Data/X.txt").
Proof.
  split; [left; reflexivity|].
  exact (proj1 (lookup_keys_are_native_forms (E:=Sim.env)
                  [Sim.archiveA] "/Data/X.txt" "" "" Sim.emptyDisk)
               "data\x.txt" (or_introl eq_refl)).
Defined.

Lemma explicit_list_is_used_exclusively_witness :
  let fl1 := {| Listfile.all := true; Listfile.mpqDir := ".";
                Listfile.listfilePath := "listfile.txt";
                Listfile.rawFilePaths := "/data/x.txt,/data/y.txt";
                Listfile.args := ["A.mpq"; "B.mpq"] |} in
  let fl2 := {| Bundled.all := true; Bundled.embedded := true;
                Bundled.rawFilePaths := "/data/x.txt,/data/y.txt";
                Bundled.listfilePath := "listfile.txt";
                Bundled.lower := false; Bundled.mpqDir := ".";
                Bundled.args := ["A.mpq"; "B.mpq"] |} in
  Bundled.filePathsToExtract fl2 [Sim.archiveA; Sim.archiveB] Sim.gameDisk =
    (Val ["/data/x.txt"; "/data/y.txt"], Sim.gameDisk, []).
Proof.
  intros fl1 fl2.
  exact (proj1 (proj2
           (explicit_list_is_used_exclusively (E:=Sim.env)
              fl1 fl2 [Sim.archiveA; Sim.archiveB] Sim.gameDisk
              (fun H => match H in _ = s return
                                match s with EmptyString => False | _ => True end
                        with eq_refl => I end)
              (fun H => match H in _ = s return
                                match s with EmptyString => False | _ => True end
                        with eq_refl => I end)))).
Defined.

(** The scenario of the specification: A and B hold data\x.txt, A comes
    first: A's copy is written under _dump_/A and B is never asked. *)
Example end_to_end_priority :
  Bundled.main {| Bundled.all := true; Bundled.embedded := true;
                  Bundled.rawFilePaths := "/data/x.txt";
                  Bundled.listfilePath := "listfile.txt";
                  Bundled.lower := false; Bundled.mpqDir := ".";
                  Bundled.args := ["A.mpq"; "B.mpq"] |} Sim.gameDisk =
  (Val tt,
   {| Sim.textFiles := ("_dump_/A/data/x.txt", "1") :: Sim.textFiles Sim.gameDisk;
      Sim.mpqFiles := Sim.mpqFiles Sim.gameDisk;
      Sim.denied := [] |},
   [CallLoad "A.mpq"; CallLoad "B.mpq";
    Stdout (MsgExtracting "data\x.txt");
    CallFileExists 0 "data\x.txt"; CallReadFile 0 "data\x.txt";
    Stdout (MsgCreating "_dump_/A/data/x.txt");
    CallMkdirAll "_dump_/A/data";
    CallWriteFile "_dump_/A/data/x.txt" "1"]).
Proof. reflexivity. Qed.

(** ** The further properties on concrete inputs *)

Lemma misses_A_missing : misses [Sim.archiveA] "data\missing.txt".
Proof. intros a [<-|[]]. reflexivity. Qed.

Lemma denormalize_normalize_roundtrip_witness :
  hasByte slash "data\global\excel\books.txt" = false /\
  strings_HasPrefix "data\global\excel\books.txt" "\" = false /\
  denormalize (normalize "data\global\excel\books.txt") =
    "data\global\excel\books.txt".
Proof.
  split; [reflexivity|]. split; [reflexivity|].
  apply (denormalize_normalize_roundtrip "data\global\excel\books.txt");
    reflexivity.
Defined.

(** Two leading separators: the second application removes the second. *)
Example denormalize_not_idempotent :
  denormalize (denormalize "//a") = "a" /\ denormalize "//a" = "\a".
Proof. split; reflexivity. Qed.

Lemma readFile_not_found_iff_witness :
  lookupKey "/Data/Missing.txt" = Some "data\missing.txt" /\
  readFile [Sim.archiveA] "/Data/Missing.txt" Sim.gameDisk =
    (Val (Err (Wrap ErrNotFound "data\missing.txt")), Sim.gameDisk,
     [CallFileExists 0 "data\missing.txt"]).
Proof.
  split; [reflexivity|].
  apply (proj1 (readFile_not_found_iff (E:=Sim.env)
                  [Sim.archiveA] "/Data/Missing.txt" "data\missing.txt"
                  Sim.gameDisk eq_refl)).
  exact misses_A_missing.
Defined.

Lemma returned_read_error_aborts_batch_witness :
  ReadFile Sim.archiveF "data\x.txt" = Failed "checksum mismatch" /\
  extractAllFiles [Sim.archiveF; Sim.archiveB] ["data\x.txt"; "data\y.txt"]
                  false Sim.emptyDisk =
    (Val (Some (WithStack (WithStack (WithStack (WithStack
                  (ErrForeign "checksum mismatch")))))),
     Sim.emptyDisk,
     [Stdout (MsgExtracting "data\x.txt");
      CallFileExists 0 "data\x.txt"; CallReadFile 0 "data\x.txt"]).
Proof.
  split; [reflexivity|].
  exact (proj1 (returned_read_error_aborts_batch (E:=Sim.env)
                  [] Sim.archiveF [Sim.archiveB] "data\x.txt" "data\x.txt"
                  "checksum mismatch" ["data\y.txt"] false Sim.emptyDisk
                  eq_refl (misses_nil _) eq_refl eq_refl)).
Defined.

Lemma empty_path_crashes_batch_witness :
  extractAllFiles [Sim.archiveA] ["data\missing.txt"; ""; "data\x.txt"]
                  false Sim.emptyDisk =
    (Panic "index out of range [0] with length 0", Sim.emptyDisk,
     [Stdout (MsgExtracting "data\missing.txt");
      CallFileExists 0 "data\missing.txt";
      Logged (MsgFileNotFound "data\missing.txt");
      Stdout (MsgExtracting "")]).
Proof.
  exact (proj1 (empty_path_crashes_batch (E:=Sim.env)
                  [Sim.archiveA] ["data\missing.txt"] ["data\x.txt"] false
                  Sim.emptyDisk Sim.emptyDisk
                  [Stdout (MsgExtracting "data\missing.txt");
                   CallFileExists 0 "data\missing.txt";
                   Logged (MsgFileNotFound "data\missing.txt")]
                  eq_refl)).
Defined.

Lemma completed_batch_accounts_for_every_path_witness :
  List.length
    (written (snd (extractAllFiles [Sim.archiveD; Sim.archiveB]
                     ["data\x.txt"; "data\y.txt"] false Sim.emptyDisk)))
  + List.length
      (skipped (snd (extractAllFiles [Sim.archiveD; Sim.archiveB]
                       ["data\x.txt"; "data\y.txt"] false Sim.emptyDisk)))
  = 2.
Proof.
  exact (proj1 (completed_batch_accounts_for_every_path (E:=Sim.env)
                  [Sim.archiveD; Sim.archiveB] ["data\x.txt"; "data\y.txt"]
                  false Sim.emptyDisk
                  (snd (fst (extractAllFiles [Sim.archiveD; Sim.archiveB]
                     ["data\x.txt"; "data\y.txt"] false Sim.emptyDisk)))
                  (snd (extractAllFiles [Sim.archiveD; Sim.archiveB]
                     ["data\x.txt"; "data\y.txt"] false Sim.emptyDisk))
                  eq_refl)).
Defined.

Lemma batch_of_missing_paths_ends_normally_witness :
  exists evs,
    extractAllFiles [Sim.archiveA] ["data\missing.txt"; "data\none.txt"]
                    true Sim.gameDisk = (Val None, Sim.gameDisk, evs)
    /\ written evs = []
    /\ loggedNotFound evs = ["data\missing.txt"; "data\none.txt"].
Proof.
  destruct (batch_of_missing_paths_ends_normally (E:=Sim.env)
              [Sim.archiveA] ["data\missing.txt"; "data\none.txt"] true
              Sim.gameDisk) as [evs [Hrun [Hw [Hs _]]]].
  - intros p [<-|[<-|[]]]; eexists; (split; [reflexivity|]);
      intros a [<-|[]]; reflexivity.
  - exists evs. repeat split; assumption.
Defined.

Lemma written_files_come_from_archives_witness :
  exists filePath key pre archive post,
    In filePath ["data\x.txt"; "data\y.txt"]
    /\ lookupKey filePath = Some key
    /\ [Sim.archiveD; Sim.archiveB] = pre ++ archive :: post
    /\ misses pre key
    /\ FileExists archive key = true
    /\ ReadFile archive key = Done "3"
    /\ "_dump_/B/data/y.txt" = destination false (FileName archive) filePath.
Proof.
  apply (written_files_come_from_archives (E:=Sim.env)
           [Sim.archiveD; Sim.archiveB] ["data\x.txt"; "data\y.txt"] false
           Sim.emptyDisk "_dump_/B/data/y.txt" "3").
  left. reflexivity.
Defined.

Lemma anyFileExists_short_circuits_witness :
  anyFileExists 0 [Sim.archiveA; Sim.archiveB; Sim.archiveD] "data\y.txt"
                Sim.gameDisk =
    (Val true, Sim.gameDisk,
     [CallFileExists 0 "data\y.txt"; CallFileExists 1 "data\y.txt"]).
Proof.
  apply (proj1 (anyFileExists_short_circuits (E:=Sim.env)
                  0 [Sim.archiveA] Sim.archiveB [Sim.archiveD] "data\y.txt"
                  Sim.gameDisk
                  (fun a H => match H with
                              | or_introl e => match e with eq_refl => eq_refl end
                              | or_intror f => match f with end
                              end))).
  reflexivity.
Defined.

Lemma unreadable_listfile_is_fatal_witness :
  Sim.IoReadFile "nolist.txt" Sim.gameDisk = inl "no such file or directory" /\
  Bundled.filePathsToExtract
    {| Bundled.all := true; Bundled.embedded := false;
       Bundled.rawFilePaths := ""; Bundled.listfilePath := "nolist.txt";
       Bundled.lower := false; Bundled.mpqDir := ".";
       Bundled.args := ["A.mpq"] |} [Sim.archiveA] Sim.gameDisk =
    (Exit (FatalError (WithStack (ErrForeign "no such file or directory"))),
     Sim.gameDisk,
     [Stdout (MsgFromListfileAt "nolist.txt"); CallIoReadFile "nolist.txt"]).
Proof.
  split; [reflexivity|].
  apply (proj2 (proj2 (unreadable_listfile_is_fatal (E:=Sim.env)
                  [Sim.archiveA] ["A.mpq"] "." "nolist.txt"
                  "no such file or directory" false Sim.gameDisk
                  ltac:(discriminate) eq_refl))).
Defined.

Lemma lists_A_B :
  lists [Sim.archiveA; Sim.archiveB]
        [["data\x.txt"]; ["data\x.txt"; "data\y.txt"]].
Proof. repeat constructor. Qed.

Lemma embedded_listing_concatenates_witness :
  getFilePathsFromEmbeddedListfile [Sim.archiveA; Sim.archiveB] Sim.gameDisk =
    (Val (OK ["data\x.txt"; "data\x.txt"; "data\y.txt"]), Sim.gameDisk,
     [CallGetFileList 0; CallGetFileList 1]).
Proof.
  exact (embedded_listing_concatenates (E:=Sim.env)
           [Sim.archiveA; Sim.archiveB]
           [["data\x.txt"]; ["data\x.txt"; "data\y.txt"]] Sim.gameDisk
           lists_A_B).
Defined.

Lemma embedded_listing_stops_at_first_failure_witness :
  GetFileList Sim.archiveL = Failed "no (listfile) in archive" /\
  getFilePathsFromEmbeddedListfile [Sim.archiveA; Sim.archiveL; Sim.archiveB]
                                   Sim.gameDisk =
    (Val (Err (WithStack (ErrForeign "no (listfile) in archive"))),
     Sim.gameDisk, [CallGetFileList 0; CallGetFileList 1]).
Proof.
  split; [reflexivity|].
  apply (proj1 (embedded_listing_stops_at_first_failure (E:=Sim.env)
                  [Sim.archiveA] Sim.archiveL [Sim.archiveB]
                  [["data\x.txt"]] Sim.gameDisk
                  ltac:(repeat constructor))).
  reflexivity.
Defined.

Lemma opens_A_B :
  opens (E:=Sim.env) Sim.gameDisk ["A.mpq"; "B.mpq"] [Sim.archiveA; Sim.archiveB].
Proof. repeat constructor. Qed.

Lemma openArchives_keeps_path_order_witness :
  openArchives ["A.mpq"; "B.mpq"] [] Sim.gameDisk =
    (Val [Sim.archiveA; Sim.archiveB], Sim.gameDisk,
     [CallLoad "A.mpq"; CallLoad "B.mpq"]).
Proof.
  exact (proj1 (openArchives_keeps_path_order (E:=Sim.env)
                  ["A.mpq"; "B.mpq"] [Sim.archiveA; Sim.archiveB] []
                  Sim.gameDisk opens_A_B)).
Defined.

Lemma openArchives_exits_at_first_failure_witness :
  Sim.Load "C.mpq" Sim.gameDisk = inl "no such file or directory" /\
  openArchives ["A.mpq"; "C.mpq"; "B.mpq"] [] Sim.gameDisk =
    (Exit (FatalError (WithStack (ErrForeign "no such file or directory"))),
     Sim.gameDisk, [CallLoad "A.mpq"; CallLoad "C.mpq"]).
Proof.
  split; [reflexivity|].
  exact (openArchives_exits_at_first_failure (E:=Sim.env)
           ["A.mpq"] "C.mpq" ["B.mpq"] [Sim.archiveA] []
           "no such file or directory" Sim.gameDisk
           ltac:(repeat constructor) eq_refl).
Defined.

Lemma nothing_selected_is_fatal_witness :
  Bundled.main {| Bundled.all := false; Bundled.embedded := true;
                  Bundled.rawFilePaths := "";
                  Bundled.listfilePath := "listfile.txt";
                  Bundled.lower := false; Bundled.mpqDir := ".";
                  Bundled.args := ["A.mpq"; "B.mpq"] |} Sim.gameDisk =
    (Exit FatalNoFiles, Sim.gameDisk, [CallLoad "A.mpq"; CallLoad "B.mpq"]).
Proof.
  exact (proj2 (proj2 (nothing_selected_is_fatal (E:=Sim.env)
                  ["A.mpq"; "B.mpq"] "." "listfile.txt" true false
                  [Sim.archiveA; Sim.archiveB] Sim.gameDisk opens_A_B))).
Defined.

Lemma embedded_strategy_selects_listings_witness :
  Bundled.filePathsToExtract
    {| Bundled.all := true; Bundled.embedded := true;
       Bundled.rawFilePaths := ""; Bundled.listfilePath := "listfile.txt";
       Bundled.lower := false; Bundled.mpqDir := ".";
       Bundled.args := ["A.mpq"; "B.mpq"] |}
    [Sim.archiveA; Sim.archiveB] Sim.gameDisk =
    (Val ["data\x.txt"; "data\x.txt"; "data\y.txt"], Sim.gameDisk,
     [Stdout MsgFromEmbedded; CallGetFileList 0; CallGetFileList 1]).
Proof.
  exact (proj2 (proj2 (embedded_strategy_selects_listings (E:=Sim.env)
                  [Sim.archiveA; Sim.archiveB]
                  [["data\x.txt"]; ["data\x.txt"; "data\y.txt"]]
                  ["A.mpq"; "B.mpq"] "." "listfile.txt" false Sim.gameDisk
                  lists_A_B))).
Defined.

Lemma filtered_paths_survive_main_witness :
  exists evs,
    Bundled.main
      {| Bundled.all := true; Bundled.embedded := false;
         Bundled.rawFilePaths := ""; Bundled.listfilePath := "listfile.txt";
         Bundled.lower := false; Bundled.mpqDir := ".";
         Bundled.args := ["A.mpq"; "B.mpq"] |} Sim.gameDisk =
    after ([CallLoad "A.mpq"; CallLoad "B.mpq"]
             ++ Stdout (MsgFromListfileAt "listfile.txt")
             :: CallIoReadFile "listfile.txt" :: evs)
      ((e <- extractAllFiles [Sim.archiveA; Sim.archiveB] ["data\x.txt"] false ;;
        match e with
        | Some err => log_Fatalf (FatalError err)
        | None => ret tt
        end) Sim.gameDisk).
Proof.
  destruct (filtered_paths_survive_main (E:=Sim.env)
              [Sim.archiveA; Sim.archiveB] ["A.mpq"; "B.mpq"] "."
              "listfile.txt" _ false Sim.gameDisk
              opens_A_B ltac:(discriminate) eq_refl)
    as [evs [_ [_ [_ Hmain]]]].
  - intros line [<-|[<-|[]]]; reflexivity.
  - exists evs. exact Hmain.
Defined.


Lemma filtered_entry_is_found_witness :
  In "data\x.txt" (listed [Sim.archiveA; Sim.archiveB] ["/data/x.txt"; "z"]) /\
  lookupKey "data\x.txt" = Some "data\x.txt" /\
  exists pre archive post,
    [Sim.archiveA; Sim.archiveB] = pre ++ archive :: post
    /\ misses pre "data\x.txt"
    /\ FileExists archive "data\x.txt" = true
    /\ readFile [Sim.archiveA; Sim.archiveB] "data\x.txt" Sim.gameDisk =
       (Val (served archive "data\x.txt"), Sim.gameDisk,
        probes 0 pre "data\x.txt"
          ++ [CallFileExists (List.length pre) "data\x.txt";
              CallReadFile (List.length pre) "data\x.txt"]).
Proof.
  split; [left; reflexivity|].
  exact (filtered_entry_is_found (E:=Sim.env)
           [Sim.archiveA; Sim.archiveB] ["/data/x.txt"; "z"] "data\x.txt"
           Sim.gameDisk (or_introl eq_refl) eq_refl
           ltac:(discriminate) eq_refl).
Defined.

(** A listfile line in mixed case that the filter keeps is looked up in
    lower case at extraction and not found there. *)
Example mixed_case_entry_is_kept_then_not_found :
  listed [Sim.archiveM] ["/Data/Global/Excel/Books.txt"] =
    ["Data\Global\Excel\Books.txt"] /\
  readFile [Sim.archiveM] "Data\Global\Excel\Books.txt" Sim.emptyDisk =
    (Val (Err (Wrap ErrNotFound "data\global\excel\books.txt")), Sim.emptyDisk,
     [CallFileExists 0 "data\global\excel\books.txt"]).
Proof. split; reflexivity. Qed.


(** C7. A listfile line that an archive reports is not kept when an
    earlier line of the listfile has 65536 bytes or more: the scanner
    stops at that line, the filters do not look at the scanner's error,
    and they return the paths gathered so far with a nil error.  Here
    the second line data/x.txt is reported by the archive, no archive is
    asked about it, and the result is empty; the same line alone in a
    listfile is kept. *)
Theorem oversized_line_hides_reported_lines :
  FileExists Sim.archiveA (denormalize "data/x.txt") = true
  /\ getFilePathsFromListfile [Sim.archiveA] "big.txt" Sim.oversizedDisk =
       (Val (OK []), Sim.oversizedDisk, [CallIoReadFile "big.txt"])
  /\ getFilePathsFromBundledListfile [Sim.archiveA] Sim.oversizedListfile
                                     Sim.emptyDisk =
       (Val (OK []), Sim.emptyDisk, [])
  /\ getFilePathsFromBundledListfile
       [Sim.archiveA] (String.append "data/x.txt" (String Sim.newline ""))
       Sim.emptyDisk =
       (Val (OK ["data\x.txt"]), Sim.emptyDisk, [CallFileExists 0 "data\x.txt"]).
Proof. repeat split; reflexivity. Qed.

(** The run with that listfile ends normally with nothing extracted. *)
Example oversized_line_run_extracts_nothing :
  Bundled.main {| Bundled.all := true; Bundled.embedded := false;
                  Bundled.rawFilePaths := ""; Bundled.listfilePath := "big.txt";
                  Bundled.lower := false; Bundled.mpqDir := ".";
                  Bundled.args := ["A.mpq"] |} Sim.oversizedDisk =
  (Val tt, Sim.oversizedDisk,
   [CallLoad "A.mpq"; Stdout (MsgFromListfileAt "big.txt");
    CallIoReadFile "big.txt"]).
Proof. reflexivity. Qed.
